(** * Circadian lamp controller (esp_code/src/main.cpp): a shallow embedding

    The firmware keeps its whole state in globals and mutates them from
    four entry points polled by [loop()]: the rotary encoder, the button
    (multi-click decoder), the WebSocket message handler and the periodic
    schedule tick [checkSchedule].  We model the globals as one record
    [State] and every entry point as a function [State -> State * list Effect],
    where [Effect] records the observable side effects (PWM recomputation,
    WebSocket broadcasts, the override blink). *)

From Stdlib Require Import ZArith Bool List String Lia.
Import ListNotations.
Open Scope Z_scope.

(** ** Data model *)

(** [enum Mode { MODE_WARM = 0, MODE_WHITE = 1, MODE_BOTH = 2 }] *)
Inductive Mode := MODE_WARM | MODE_WHITE | MODE_BOTH.

Definition Mode_eqb (a b : Mode) : bool :=
  match a, b with
  | MODE_WARM, MODE_WARM | MODE_WHITE, MODE_WHITE | MODE_BOTH, MODE_BOTH => true
  | _, _ => false
  end.

Definition Mode_to_int (m : Mode) : Z :=
  match m with MODE_WARM => 0 | MODE_WHITE => 1 | MODE_BOTH => 2 end.

(** The cast [(Mode)n]; the firmware only casts values validated or
    constrained to [0, 2]. Any other value falls to MODE_BOTH, which is
    how [applyOutput]'s [default:] branch treats it. *)
Definition Mode_of_int (n : Z) : Mode :=
  if n =? 0 then MODE_WARM else if n =? 1 then MODE_WHITE else MODE_BOTH.

(** [struct Routine] *)
Record Routine := mkRoutine {
  r_id : Z;
  r_enabled : bool;
  r_start_hour : Z; r_start_minute : Z;
  r_end_hour : Z; r_end_minute : Z;
  r_brightness : Z;
  r_mode : Z
}.

(** [struct Alarm] *)
Record Alarm := mkAlarm {
  a_id : Z;
  a_enabled : bool;
  a_wake_hour : Z; a_wake_minute : Z;
  a_start_hour : Z; a_start_minute : Z;
  a_duration_minutes : Z
}.

Definition MAX_ROUTINES : Z := 10.
Definition MAX_ALARMS : Z := 5.

(** The three lamp globals [isOn], [brightness], [mode]. *)
Record Lamp := mkLamp { isOn : bool; brightness : Z; mode : Mode }.

(** Routine tracking globals. *)
Record RoutineSlot := mkRoutineSlot {
  routineActive : bool;
  wasOffBeforeRoutine : bool;
  activeRoutineId : Z;
  originalBrightness : Z;
  originalMode : Mode;
  originalIsOn : bool;
  lastRoutineMinute : Z
}.

(** Alarm tracking globals. *)
Record AlarmSlot := mkAlarmSlot {
  alarmActive : bool;
  wasOffBeforeAlarm : bool;
  activeAlarmId : Z;
  alarmOriginalBrightness : Z;
  alarmOriginalMode : Mode;
  alarmOriginalIsOn : bool;
  lastAlarmMinute : Z
}.

(** Suppression globals. *)
Record Suppression := mkSuppression {
  routineSuppressed : bool;
  suppressedRoutine : Routine;
  alarmSuppressed : bool;
  suppressedAlarm : Alarm
}.

(** Button decoder state: the globals [clickCount], [firstClickTime],
    [lastClickReleaseTime] and the statics [prevPressed], [lastChange] of
    [handleButtonClicks]. Times are [unsigned long] milliseconds. *)
Record ClickState := mkClickState {
  clickCount : Z;            (* uint8_t *)
  firstClickTime : Z;
  lastClickReleaseTime : Z;
  prevPressed : bool;
  lastChange : Z
}.

Record State := mkState {
  routines : list Routine;   (* routines[0 .. routine_count) *)
  alarms : list Alarm;       (* alarms[0 .. alarm_count) *)
  lamp : Lamp;
  rslot : RoutineSlot;
  aslot : AlarmSlot;
  supp : Suppression;
  sunSyncActive : bool;
  sunSyncDisabledByHardware : bool;
  clicks : ClickState;
  lastPos : Z                (* static lastPos of handleRotaryEncoder *)
}.

(** Observable side effects. *)
Inductive Effect :=
  | EApplyOutput (ch0 ch1 : Z)           (* ledcWrite of both channels *)
  | ESendStateUpdate
  | ESyncResponse (type : string) (success : bool) (message : string)
  | ESunSyncState (active : bool) (source : string)
  | EBlink (count interval : Z)
  | EOverrideEvent (routineWas alarmWas sunWas : bool).

(** Field setters. *)
Definition set_lamp (s : State) (l : Lamp) : State :=
  mkState (routines s) (alarms s) l (rslot s) (aslot s) (supp s)
    (sunSyncActive s) (sunSyncDisabledByHardware s) (clicks s) (lastPos s).
Definition set_rslot (s : State) (r : RoutineSlot) : State :=
  mkState (routines s) (alarms s) (lamp s) r (aslot s) (supp s)
    (sunSyncActive s) (sunSyncDisabledByHardware s) (clicks s) (lastPos s).
Definition set_aslot (s : State) (a : AlarmSlot) : State :=
  mkState (routines s) (alarms s) (lamp s) (rslot s) a (supp s)
    (sunSyncActive s) (sunSyncDisabledByHardware s) (clicks s) (lastPos s).
Definition set_supp (s : State) (x : Suppression) : State :=
  mkState (routines s) (alarms s) (lamp s) (rslot s) (aslot s) x
    (sunSyncActive s) (sunSyncDisabledByHardware s) (clicks s) (lastPos s).
Definition set_routines (s : State) (rs : list Routine) : State :=
  mkState rs (alarms s) (lamp s) (rslot s) (aslot s) (supp s)
    (sunSyncActive s) (sunSyncDisabledByHardware s) (clicks s) (lastPos s).
Definition set_alarms (s : State) (al : list Alarm) : State :=
  mkState (routines s) al (lamp s) (rslot s) (aslot s) (supp s)
    (sunSyncActive s) (sunSyncDisabledByHardware s) (clicks s) (lastPos s).
Definition set_sunsync (s : State) (act dis : bool) : State :=
  mkState (routines s) (alarms s) (lamp s) (rslot s) (aslot s) (supp s)
    act dis (clicks s) (lastPos s).
Definition set_clicks (s : State) (c : ClickState) : State :=
  mkState (routines s) (alarms s) (lamp s) (rslot s) (aslot s) (supp s)
    (sunSyncActive s) (sunSyncDisabledByHardware s) c (lastPos s).
Definition set_lastPos (s : State) (p : Z) : State :=
  mkState (routines s) (alarms s) (lamp s) (rslot s) (aslot s) (supp s)
    (sunSyncActive s) (sunSyncDisabledByHardware s) (clicks s) p.

(** Initial values of the globals. *)
Definition empty_routine : Routine := mkRoutine 0 false 0 0 0 0 0 0.
Definition empty_alarm : Alarm := mkAlarm 0 false 0 0 0 0 0.

Definition init : State :=
  mkState [] []
    (mkLamp true 0 MODE_BOTH)
    (mkRoutineSlot false false (-1) 8 MODE_BOTH true (-1))
    (mkAlarmSlot false false (-1) 8 MODE_BOTH true (-1))
    (mkSuppression false empty_routine false empty_alarm)
    false false
    (mkClickState 0 0 0 false 0)
    0.

(** ** Output mapper: [applyOutput] *)

(** The channel pair written by [applyOutput] (inverted scale, 15 = off). *)
Definition compute_channels (on : bool) (b : Z) (m : Mode) : Z * Z :=
  if negb on then (15, 15)
  else
    let safeBrightness := Z.max 1 b in
    let invertedBrightness := 15 - safeBrightness in
    match m with
    | MODE_WARM => (invertedBrightness, 15)
    | MODE_WHITE => (15, invertedBrightness)
    | MODE_BOTH => (invertedBrightness, invertedBrightness)
    end.

Definition applyOutput (l : Lamp) : Effect :=
  let '(c0, c1) := compute_channels (isOn l) (brightness l) (mode l) in
  EApplyOutput c0 c1.

(** ** IEEE binary32 arithmetic used by the alarm ramp

    [float progress = (float)(currentTime - startTime) / (float)duration;]
    A finite binary32 value is [f_mant * 2 ^ f_exp] with a 24-bit
    significand; [round32 p q] is the binary32 value nearest to [p / q]
    (ties to even), the result of a correctly rounded [/] or [*].
    The integers involved are below [2^24], so their conversion to float
    is exact, and the values stay far from the subnormal and overflow
    ranges. *)
Record F32 := mkF32 { f_mant : Z; f_exp : Z }.

(** [p / (q * 2^e)] as a numerator/denominator pair of integers. *)
Definition scale (p q e : Z) : Z * Z :=
  if e <=? 0 then (p * 2 ^ (- e), q) else (p, q * 2 ^ e).

Definition round32_pos (p q : Z) : F32 :=
  let e0 := Z.log2 p - Z.log2 q - 23 in
  let e := if fst (scale p q e0) / snd (scale p q e0) <? 2 ^ 23
           then e0 - 1 else e0 in
  let num := fst (scale p q e) in
  let den := snd (scale p q e) in
  let n := num / den in
  let r := num mod den in
  let m := if 2 * r <? den then n
           else if den <? 2 * r then n + 1
           else if Z.even n then n else n + 1 in
  mkF32 m e.

(** Correctly rounded binary32 value of [p / q], for [q > 0]. *)
Definition round32 (p q : Z) : F32 :=
  if p =? 0 then mkF32 0 0
  else if p <? 0 then
    let x := round32_pos (- p) q in mkF32 (- f_mant x) (f_exp x)
  else round32_pos p q.

(** [x * k] for an integer [k] (converted to float exactly). *)
Definition f32_mul_int (x : F32) (k : Z) : F32 :=
  if f_exp x >=? 0 then round32 (f_mant x * k * 2 ^ f_exp x) 1
  else round32 (f_mant x * k) (2 ^ (- f_exp x)).

(** Comparisons of a float with an integer constant. *)
Definition f32_lt_int (x : F32) (k : Z) : bool :=
  if f_exp x >=? 0 then f_mant x * 2 ^ f_exp x <? k
  else f_mant x <? k * 2 ^ (- f_exp x).
Definition f32_gt_int (x : F32) (k : Z) : bool :=
  if f_exp x >=? 0 then k <? f_mant x * 2 ^ f_exp x
  else k * 2 ^ (- f_exp x) <? f_mant x.

(** [constrain(progress, 0.0, 1.0)]: Arduino's macro
    [(amt < low) ? low : ((amt > high) ? high : amt)]. *)
Definition constrain01 (x : F32) : F32 :=
  if f32_lt_int x 0 then mkF32 0 0
  else if f32_gt_int x 1 then mkF32 1 0
  else x.

(** The C cast [(int)x]: truncation toward zero. *)
Definition f32_to_int (x : F32) : Z :=
  if f_exp x >=? 0 then f_mant x * 2 ^ f_exp x
  else Z.quot (f_mant x) (2 ^ (- f_exp x)).

(** [brightness = (int)(constrain((float)c / (float)d, 0.0, 1.0) * 15)]
    with [c = currentTime - startTime] and [d = duration_minutes]. *)
Definition alarm_brightness (c d : Z) : Z :=
  let progress := round32 c d in
  let progress := constrain01 progress in
  f32_to_int (f32_mul_int progress 15).

(** ** Time ranges and suppression windows *)

Definition isWithinTimeRange (startHour startMinute endHour endMinute currentTime : Z)
  : bool :=
  let startTime := startHour * 60 + startMinute in
  let endTime := endHour * 60 + endMinute in
  if endTime >? startTime then (currentTime >=? startTime) && (currentTime <=? endTime)
  else (currentTime >=? startTime) || (currentTime <=? endTime).

Definition routine_window (r : Routine) (currentTime : Z) : bool :=
  isWithinTimeRange (r_start_hour r) (r_start_minute r)
    (r_end_hour r) (r_end_minute r) currentTime.

Definition alarm_window (a : Alarm) (currentTime : Z) : bool :=
  isWithinTimeRange (a_start_hour a) (a_start_minute a)
    (a_wake_hour a) (a_wake_minute a) currentTime.

Definition updateSuppressionWindows (x : Suppression) (currentTime : Z) : Suppression :=
  let rs := if routineSuppressed x && negb (routine_window (suppressedRoutine x) currentTime)
            then false else routineSuppressed x in
  let als := if alarmSuppressed x && negb (alarm_window (suppressedAlarm x) currentTime)
             then false else alarmSuppressed x in
  mkSuppression rs (suppressedRoutine x) als (suppressedAlarm x).

Definition findRoutineById (rs : list Routine) (id : Z) : option Routine :=
  if id <? 0 then None else find (fun r => r_id r =? id) rs.

Definition findAlarmById (al : list Alarm) (id : Z) : option Alarm :=
  if id <? 0 then None else find (fun a => a_id a =? id) al.

(** ** The schedule tick: [checkSchedule] *)

(** The routine loop returns at the first enabled routine whose window
    contains [currentTime] (every branch of its body ends in [return]), so
    it only ever inspects that routine. *)
Definition find_routine (rs : list Routine) (currentTime : Z) : option Routine :=
  find (fun r => r_enabled r && routine_window r currentTime) rs.

(** Alarm windows are tested without midnight wrap:
    [currentTime >= startTime && currentTime <= wakeTime]. *)
Definition alarm_matches (a : Alarm) (currentTime : Z) : bool :=
  let startTime := a_start_hour a * 60 + a_start_minute a in
  let wakeTime := a_wake_hour a * 60 + a_wake_minute a in
  (currentTime >=? startTime) && (currentTime <=? wakeTime).

Definition find_alarm (al : list Alarm) (currentTime : Z) : option Alarm :=
  find (fun a => a_enabled a && alarm_matches a currentTime) al.

(** Routine branch, once the first matching routine [r] is known. *)
Definition apply_routine (s : State) (r : Routine) (currentMinute : Z)
  : State * list Effect :=
  let x := supp s in
  if routineSuppressed x && (r_id (suppressedRoutine x) =? r_id r) then (s, [])
  else
    let rsl := rslot s in
    let shouldActivate :=
      negb (routineActive rsl) || negb (activeRoutineId rsl =? r_id r)
      || negb (lastRoutineMinute rsl =? currentMinute) in
    if shouldActivate then
      let l := lamp s in
      let rsl1 :=
        if negb (routineActive rsl)
        then mkRoutineSlot (routineActive rsl) (negb (isOn l)) (activeRoutineId rsl)
               (brightness l) (mode l) (isOn l) (lastRoutineMinute rsl)
        else rsl in
      let rsl2 := mkRoutineSlot true (wasOffBeforeRoutine rsl1) (r_id r)
                    (originalBrightness rsl1) (originalMode rsl1)
                    (originalIsOn rsl1) currentMinute in
      let l' := mkLamp true (r_brightness r) (Mode_of_int (r_mode r)) in
      (set_lamp (set_rslot s rsl2) l', [applyOutput l'; ESendStateUpdate])
    else (s, []).

(** Routine end: markers cleared, lamp kept as the routine left it. *)
Definition end_routine (s : State) : State * list Effect :=
  let rsl := rslot s in
  (set_rslot s (mkRoutineSlot false false (-1) (originalBrightness rsl)
                  (originalMode rsl) (originalIsOn rsl) (-1)),
   [ESendStateUpdate]).

(** Alarm branch, once the first matching alarm [a] is known. *)
Definition apply_alarm (s : State) (a : Alarm) (currentTime currentMinute : Z)
  : State * list Effect :=
  let x := supp s in
  if alarmSuppressed x && (a_id (suppressedAlarm x) =? a_id a) then (s, [])
  else
    let asl := aslot s in
    let shouldUpdate :=
      negb (alarmActive asl) || negb (activeAlarmId asl =? a_id a)
      || negb (lastAlarmMinute asl =? currentMinute) in
    if shouldUpdate then
      let l := lamp s in
      let asl1 :=
        if negb (alarmActive asl)
        then mkAlarmSlot (alarmActive asl) (negb (isOn l)) (activeAlarmId asl)
               (brightness l) (mode l) (isOn l) (lastAlarmMinute asl)
        else asl in
      let asl2 := mkAlarmSlot true (wasOffBeforeAlarm asl1) (a_id a)
                    (alarmOriginalBrightness asl1) (alarmOriginalMode asl1)
                    (alarmOriginalIsOn asl1) currentMinute in
      let startTime := a_start_hour a * 60 + a_start_minute a in
      let l' := mkLamp true
                  (alarm_brightness (currentTime - startTime) (a_duration_minutes a))
                  MODE_BOTH in
      (set_lamp (set_aslot s asl2) l', [applyOutput l'; ESendStateUpdate])
    else (s, []).

(** Alarm end: lock the lamp on, full brightness, both channels. *)
Definition end_alarm (s : State) : State * list Effect :=
  let asl := aslot s in
  let l' := mkLamp true 15 MODE_BOTH in
  (set_lamp (set_aslot s (mkAlarmSlot false false (-1)
                            (alarmOriginalBrightness asl) (alarmOriginalMode asl)
                            (alarmOriginalIsOn asl) (-1))) l',
   [applyOutput l'; ESendStateUpdate]).

(** [checkSchedule]: [tm] is the [getLocalTime] reading ([None] when no
    valid time is available), as (tm_hour, tm_min). *)
Definition checkSchedule (s0 : State) (tm : option (Z * Z)) : State * list Effect :=
  match tm with
  | None => (s0, [])
  | Some (currentHour, currentMinute) =>
      let currentTime := currentHour * 60 + currentMinute in
      let s := set_supp s0 (updateSuppressionWindows (supp s0) currentTime) in
      match find_routine (routines s) currentTime with
      | Some r => apply_routine s r currentMinute
      | None =>
          if routineActive (rslot s) then end_routine s
          else
            match find_alarm (alarms s) currentTime with
            | Some a => apply_alarm s a currentTime currentMinute
            | None => if alarmActive (aslot s) then end_alarm s else (s, [])
            end
      end
  end.

(** ** Schedule store: routine and alarm sync messages *)

(** [readIntField]: the field is [None] when missing or not an integer. *)
Definition readIntField (v : option Z) (minValue maxValue : Z) : option Z :=
  match v with
  | Some x => if (x <? minValue) || (x >? maxValue) then None else Some x
  | None => None
  end.

(** The [data] object of a routine upsert, already decoded from JSON:
    each field is [None] when missing or of the wrong JSON type. *)
Record RoutineData := mkRoutineData {
  rd_id : option Z; rd_enabled : option bool;
  rd_start_hour : option Z; rd_start_minute : option Z;
  rd_end_hour : option Z; rd_end_minute : option Z;
  rd_brightness : option Z; rd_mode : option Z
}.

Record AlarmData := mkAlarmData {
  ad_id : option Z; ad_enabled : option bool;
  ad_wake_hour : option Z; ad_wake_minute : option Z;
  ad_start_hour : option Z; ad_start_minute : option Z;
  ad_duration_minutes : option Z
}.

(** [action] of a sync message, with its payload. *)
Inductive SyncAction (D : Type) :=
  | ActMissing                      (* no string [action] *)
  | ActUpsert (data : option D)     (* [None]: [data] is not an object *)
  | ActDelete (id : option Z)       (* the root-level [id] *)
  | ActUnknown.
Arguments ActMissing {D}.
Arguments ActUpsert {D} data.
Arguments ActDelete {D} id.
Arguments ActUnknown {D}.

(** Field validation of a routine upsert, in the order of the source;
    [inr] carries the error message. *)
Definition validate_routine (d : RoutineData) : Routine + string :=
  match readIntField (rd_id d) 0 32767 with
  | None => inr "Invalid field: id"%string
  | Some id =>
  match rd_enabled d with
  | None => inr "Invalid field: enabled"%string
  | Some enabled =>
  match readIntField (rd_start_hour d) 0 23, readIntField (rd_start_minute d) 0 59,
        readIntField (rd_end_hour d) 0 23, readIntField (rd_end_minute d) 0 59 with
  | Some sh, Some sm, Some eh, Some em =>
      match readIntField (rd_brightness d) 0 15 with
      | None => inr "Invalid field: brightness"%string
      | Some b =>
      match readIntField (rd_mode d) 0 2 with
      | None => inr "Invalid field: mode"%string
      | Some m => inl (mkRoutine id enabled sh sm eh em b m)
      end end
  | _, _, _, _ => inr "Invalid start/end time"%string
  end end end.

Definition validate_alarm (d : AlarmData) : Alarm + string :=
  match readIntField (ad_id d) 0 32767 with
  | None => inr "Invalid field: id"%string
  | Some id =>
  match ad_enabled d with
  | None => inr "Invalid field: enabled"%string
  | Some enabled =>
  match readIntField (ad_wake_hour d) 0 23, readIntField (ad_wake_minute d) 0 59,
        readIntField (ad_start_hour d) 0 23, readIntField (ad_start_minute d) 0 59 with
  | Some wh, Some wm, Some sh, Some sm =>
      match readIntField (ad_duration_minutes d) 1 240 with
      | None => inr "Invalid field: duration_minutes"%string
      | Some dur => inl (mkAlarm id enabled wh wm sh sm dur)
      end
  | _, _, _, _ => inr "Invalid start/wake time"%string
  end end end.

(** [for (i = 0; i < count; i++) if (xs[i].id == id) { index = i; break; }] *)
Fixpoint find_index {A} (idf : A -> Z) (xs : list A) (id : Z) : option nat :=
  match xs with
  | [] => None
  | x :: xs' => if idf x =? id then Some O
                else option_map S (find_index idf xs' id)
  end.

(** [xs[i] = v] for an index below the count. *)
Fixpoint set_nth {A} (xs : list A) (i : nat) (v : A) : list A :=
  match xs, i with
  | [], _ => []
  | _ :: xs', O => v :: xs'
  | x :: xs', S i' => x :: set_nth xs' i' v
  end.

(** Delete: shift the entries after the first one with [id] down by one. *)
Fixpoint remove_first {A} (idf : A -> Z) (xs : list A) (id : Z) : option (list A) :=
  match xs with
  | [] => None
  | x :: xs' => if idf x =? id then Some xs'
                else option_map (cons x) (remove_first idf xs' id)
  end.

(** The store part of an upsert with a validated record [r]:
    overwrite in place, else append while below capacity, else fail. *)
Definition upsert {A} (idf : A -> Z) (cap : Z) (xs : list A) (r : A)
  : option (list A) :=
  match find_index idf xs (idf r) with
  | Some i => Some (set_nth xs i r)
  | None => if Z.of_nat (List.length xs) <? cap then Some (xs ++ [r])%list else None
  end.

Definition handleRoutineSync (rs : list Routine) (act : SyncAction RoutineData)
  : list Routine * Effect :=
  let resp := ESyncResponse "routine_sync_response" in
  match act with
  | ActMissing => (rs, resp false "Missing action for routine sync")
  | ActUpsert None => (rs, resp false "Invalid routine payload (data missing)")
  | ActUpsert (Some d) =>
      match validate_routine d with
      | inr msg => (rs, resp false msg)
      | inl r =>
          match upsert r_id MAX_ROUTINES rs r with
          | Some rs' => (rs', resp true "Routine synced successfully")
          | None => (rs, resp false "Storage full")
          end
      end
  | ActDelete idv =>
      match readIntField idv 0 32767 with
      | None => (rs, resp false "Invalid field: id")
      | Some id =>
          match remove_first r_id rs id with
          | Some rs' => (rs', resp true "Routine deleted")
          | None => (rs, resp false "Routine not found")
          end
      end
  | ActUnknown => (rs, resp false "Unknown routine action")
  end%string.

Definition handleAlarmSync (al : list Alarm) (act : SyncAction AlarmData)
  : list Alarm * Effect :=
  let resp := ESyncResponse "alarm_sync_response" in
  match act with
  | ActMissing => (al, resp false "Missing action for alarm sync")
  | ActUpsert None => (al, resp false "Invalid alarm payload (data missing)")
  | ActUpsert (Some d) =>
      match validate_alarm d with
      | inr msg => (al, resp false msg)
      | inl a =>
          match upsert a_id MAX_ALARMS al a with
          | Some al' => (al', resp true "Alarm synced successfully")
          | None => (al, resp false "Storage full")
          end
      end
  | ActDelete idv =>
      match readIntField idv 0 32767 with
      | None => (al, resp false "Invalid field: id")
      | Some id =>
          match remove_first a_id al id with
          | Some al' => (al', resp true "Alarm deleted")
          | None => (al, resp false "Alarm not found")
          end
      end
  | ActUnknown => (al, resp false "Unknown alarm action")
  end%string.

(** [String(n)] for the non-negative counters of the full-sync report. *)
Fixpoint digits (fuel : nat) (n : Z) (acc : string) : string :=
  match fuel with
  | O => acc
  | S f =>
      let acc' := String (Ascii.ascii_of_nat (48 + Z.to_nat (n mod 10))) acc in
      if n <? 10 then acc' else digits f (n / 10) acc'
  end.
Definition Z_to_string (n : Z) : string := digits 20 n EmptyString.

(** A [routines] / [alarms] member of a full-sync message. *)
Inductive ArrayField (D : Type) :=
  | FieldAbsent
  | FieldArray (items : list D)   (* non-object items decode with all fields missing *)
  | FieldNotArray.
Arguments FieldAbsent {D}.
Arguments FieldArray {D} items.
Arguments FieldNotArray {D}.

(** The loop of [handleFullSync] over one array: stop when the store is
    full, skip (and count) invalid items, append valid ones. *)
Fixpoint fill {D A} (validate : D -> A + string) (cap : Z)
    (items : list D) (acc : list A) (invalid : Z) : list A * Z :=
  match items with
  | [] => (acc, invalid)
  | d :: items' =>
      if Z.of_nat (List.length acc) >=? cap then (acc, invalid)
      else match validate d with
           | inr _ => fill validate cap items' acc (invalid + 1)
           | inl x => fill validate cap items' (acc ++ [x])%list invalid
           end
  end.

Definition fill_field {D A} (validate : D -> A + string) (cap : Z) (f : ArrayField D)
  : list A * Z :=
  match f with
  | FieldAbsent => ([], 0)
  | FieldArray items => fill validate cap items [] 0
  | FieldNotArray => ([], 1)
  end.

Definition handleFullSync (fr : ArrayField RoutineData) (fa : ArrayField AlarmData)
  : list Routine * list Alarm * Effect :=
  let '(rs, invalidRoutineCount) := fill_field validate_routine MAX_ROUTINES fr in
  let '(al, invalidAlarmCount) := fill_field validate_alarm MAX_ALARMS fa in
  let success := (invalidRoutineCount =? 0) && (invalidAlarmCount =? 0) in
  let msg := (
    if success then "Full sync complete"
    else "Full sync partial: "
         ++ (if invalidRoutineCount >? 0
             then Z_to_string invalidRoutineCount ++ " routine(s) skipped" else "")
         ++ (if invalidAlarmCount >? 0
             then (if invalidRoutineCount >? 0 then ", " else "")
                  ++ Z_to_string invalidAlarmCount ++ " alarm(s) skipped"
             else ""))%string in
  (rs, al, ESyncResponse "full_sync_response" success msg)%string.

(** [handleSunSyncState] *)
Definition handleSunSyncState (s : State) (active : bool) (source : string)
  : State * list Effect :=
  let previous := sunSyncActive s in
  let dis := if active then false
             else if String.eqb source "hardware" then true else false in
  let s' := set_sunsync s active dis in
  (s', if Bool.eqb previous active then [] else [ESendStateUpdate]).

(** [isManualControlLocked] *)
Definition isManualControlLocked (s : State) : bool :=
  routineActive (rslot s) || alarmActive (aslot s) || sunSyncActive s.

(** The [type] member of an inbound message and its payload. *)
Inductive MsgType :=
  | TRoutineSync (act : SyncAction RoutineData)
  | TAlarmSync (act : SyncAction AlarmData)
  | TFullSync (rs : ArrayField RoutineData) (al : ArrayField AlarmData)
  | TTimeSync (timestamp : option Z)
  | TSunSync (active : option bool) (source : option string)
  | TOther.

(** A decoded WebSocket text frame: every member [onWSMsg] looks at. *)
Record Msg := mkMsg {
  m_brightness : option Z;
  m_mode : option Z;
  m_on : option bool;
  m_request_state : option bool;
  m_type : option MsgType
}.

(** [constrain(x, lo, hi)] on integers. *)
Definition constrain (x lo hi : Z) : Z :=
  if x <? lo then lo else if x >? hi then hi else x.

(** The direct-state-set part of [onWSMsg]: [brightness], then [mode],
    then [on]; returns the new lamp and [stateChanged]. *)
Definition direct_set (l : Lamp) (m : Msg) : Lamp * bool :=
  let '(l, ch) :=
    match m_brightness m with
    | Some v =>
        let nb := constrain v 0 15 in
        let nb := if isOn l && (nb <? 1) then 1 else nb in
        if negb (nb =? brightness l) then (mkLamp (isOn l) nb (mode l), true)
        else (l, false)
    | None => (l, false)
    end in
  let '(l, ch) :=
    match m_mode m with
    | Some v =>
        let nm := Mode_of_int (constrain v 0 2) in
        if negb (Mode_eqb nm (mode l)) then (mkLamp (isOn l) (brightness l) nm, true)
        else (l, ch)
    | None => (l, ch)
    end in
  match m_on m with
  | Some b =>
      if negb (Bool.eqb b (isOn l)) then (mkLamp b (brightness l) (mode l), true)
      else (l, ch)
  | None => (l, ch)
  end.

Definition handle_type (s : State) (t : MsgType) : State * list Effect :=
  match t with
  | TRoutineSync act =>
      let '(rs, e) := handleRoutineSync (routines s) act in (set_routines s rs, [e])
  | TAlarmSync act =>
      let '(al, e) := handleAlarmSync (alarms s) act in (set_alarms s al, [e])
  | TFullSync fr fa =>
      let '(rs, al, e) := handleFullSync fr fa in
      (set_alarms (set_routines s rs) al, [e])
  | TTimeSync (Some _) =>
      (* the clock itself is outside the model *)
      (s, [ESyncResponse "time_sync_response" true
             "Time synchronized to Auckland timezone with automatic DST"])
  | TTimeSync None =>
      (s, [ESyncResponse "time_sync_response" false "Invalid time data"])
  | TSunSync None _ =>
      (s, [ESyncResponse "sun_sync_response" false "Invalid field: active"])
  | TSunSync (Some active) src =>
      let source := match src with Some x => x | None => "app" end in
      let '(s', es) := handleSunSyncState s active source in
      (s', app es [ESyncResponse "sun_sync_response" true
                    (if active then "Sun sync enabled" else "Sun sync disabled")])
  | TOther => (s, [])
  end%string.

(** [onWSMsg] on a WS_EVT_DATA text frame that parsed as JSON. *)
Definition onWSMsg (s : State) (m : Msg) : State * list Effect :=
  let '(l, stateChanged) := direct_set (lamp s) m in
  let s1 := set_lamp s l in
  let e1 := match m_request_state m with
            | Some true => [ESendStateUpdate] | _ => [] end in
  let '(s2, e2) := match m_type m with
                   | Some t => handle_type s1 t | None => (s1, []) end in
  (s2, e1 ++ e2 ++ (if stateChanged then [applyOutput (lamp s2)] else []))%list.

(** ** Override controller: [handleTripleClick] *)

Definition OVERRIDE_BLINK_COUNT : Z := 2.
Definition OVERRIDE_BLINK_INTERVAL_MS : Z := 150.

Definition handleTripleClick (s : State) : State * list Effect :=
  let routineWasActive := routineActive (rslot s) in
  let alarmWasActive := alarmActive (aslot s) in
  let sunSyncWasActive := sunSyncActive s in
  let x := supp s in
  (* routine part *)
  let '(x, rsl) :=
    if routineWasActive then
      let x' := match findRoutineById (routines s) (activeRoutineId (rslot s)) with
                | Some r => mkSuppression true r (alarmSuppressed x) (suppressedAlarm x)
                | None => mkSuppression false (suppressedRoutine x)
                            (alarmSuppressed x) (suppressedAlarm x)
                end in
      let r := rslot s in
      (x', mkRoutineSlot false false (-1) (originalBrightness r) (originalMode r)
             (originalIsOn r) (-1))
    else (x, rslot s) in
  (* alarm part *)
  let '(x, asl) :=
    if alarmWasActive then
      let x' := match findAlarmById (alarms s) (activeAlarmId (aslot s)) with
                | Some a => mkSuppression (routineSuppressed x) (suppressedRoutine x) true a
                | None => mkSuppression (routineSuppressed x) (suppressedRoutine x)
                            false (suppressedAlarm x)
                end in
      let a := aslot s in
      (x', mkAlarmSlot false false (-1) (alarmOriginalBrightness a)
             (alarmOriginalMode a) (alarmOriginalIsOn a) (-1))
    else (x, aslot s) in
  let s1 := set_aslot (set_rslot (set_supp s x) rsl) asl in
  (* sun sync part *)
  let '(s2, e_sun) :=
    if sunSyncActive s1 then (set_sunsync s1 false true, [ESunSyncState false "hardware"])
    else (s1, []) in
  let e_blink :=
    if routineWasActive || alarmWasActive || sunSyncWasActive
    then [EBlink OVERRIDE_BLINK_COUNT OVERRIDE_BLINK_INTERVAL_MS; applyOutput (lamp s2)]
    else [] in
  (s2, e_sun ++ e_blink ++
       [applyOutput (lamp s2); ESendStateUpdate;
        EOverrideEvent routineWasActive alarmWasActive sunSyncWasActive])%list.

(** ** Gesture decoder: [handleButtonClicks] *)

Definition DEBOUNCE_MS : Z := 35.
Definition MULTI_CLICK_WINDOW_MS : Z := 600.

(** [unsigned long] subtraction. *)
Definition ul_sub (a b : Z) : Z := (a - b) mod 2 ^ 32.

Inductive Gesture := Single | Double | TripleOrMore.

(** One call of [handleButtonClicks] with [millis() = now] and the
    logical (polarity-corrected) [pressed] reading: the new decoder state
    and the gesture resolved by this call, if any. *)
Definition decode (c : ClickState) (now : Z) (pressed : bool)
  : ClickState * option Gesture :=
  let '(c1, g1) :=
    if negb (Bool.eqb pressed (prevPressed c))
       && (ul_sub now (lastChange c) >? DEBOUNCE_MS) then
      if prevPressed c && negb pressed then
        (* release edge *)
        let first := if clickCount c =? 0 then now else firstClickTime c in
        let cnt := (clickCount c + 1) mod 256 in
        if (cnt >=? 3) && (ul_sub now first <=? MULTI_CLICK_WINDOW_MS)
        then (mkClickState 0 first now pressed now, Some TripleOrMore)
        else (mkClickState cnt first now pressed now, None)
      else (mkClickState (clickCount c) (firstClickTime c) (lastClickReleaseTime c)
              pressed now, None)
    else (c, None) in
  match g1 with
  | Some g => (c1, Some g)   (* clickCount is 0 here: the timeout test below is false *)
  | None =>
      if (clickCount c1 >? 0)
         && (ul_sub now (lastClickReleaseTime c1) >? MULTI_CLICK_WINDOW_MS) then
        let clicks := clickCount c1 in
        (mkClickState 0 (firstClickTime c1) (lastClickReleaseTime c1)
           (prevPressed c1) (lastChange c1),
         Some (if clicks >=? 3 then TripleOrMore
               else if clicks =? 2 then Double else Single))
      else (c1, None)
  end.

(** The action of a resolved gesture. *)
Definition on_gesture (s : State) (g : Gesture) : State * list Effect :=
  match g with
  | TripleOrMore => handleTripleClick s
  | Double =>
      if isManualControlLocked s then (s, [])
      else
        let l := lamp s in
        let l' := mkLamp (isOn l) (brightness l)
                    (Mode_of_int ((Mode_to_int (mode l) + 1) mod 3)) in
        (set_lamp s l', [applyOutput l'; ESendStateUpdate])
  | Single =>
      if isManualControlLocked s then (s, [])
      else
        let l := lamp s in
        let l' := mkLamp (negb (isOn l)) (brightness l) (mode l) in
        (set_lamp s l', [applyOutput l'; ESendStateUpdate])
  end.

Definition handleButtonClicks (s : State) (now : Z) (pressed : bool)
  : State * list Effect :=
  let '(c', g) := decode (clicks s) now pressed in
  let s1 := set_clicks s c' in
  match g with
  | None => (s1, [])
  | Some g => on_gesture s1 g
  end.

(** ** Rotary encoder: [handleRotaryEncoder] with encoder position [pos] *)
Definition handleRotaryEncoder (s : State) (pos : Z) : State * list Effect :=
  if pos =? lastPos s then (s, [])
  else
    let delta := pos - lastPos s in
    let s1 := set_lastPos s pos in
    if isManualControlLocked s1 then (s1, [])
    else
      let l := lamp s1 in
      let minBrightness := if isOn l then 1 else 0 in
      let newBrightness := constrain (brightness l + delta * 1) minBrightness 15 in
      if negb (newBrightness =? brightness l) then
        let l' := mkLamp (isOn l) newBrightness (mode l) in
        (set_lamp s1 l', [applyOutput l'; ESendStateUpdate])
      else (s1, []).

(** ** [blinkLamp] *)
Inductive PwmOp := LedcWrite (channel value : Z) | Delay (ms : Z).

Fixpoint blink_loop (n : nat) (savedCh0 savedCh1 : Z) (lampWasOn : bool)
  (intervalMs : Z) : list PwmOp :=
  match n with
  | O => []
  | S n' =>
      [LedcWrite 0 15; LedcWrite 1 15; Delay intervalMs]
      ++ (if lampWasOn then [LedcWrite 0 savedCh0; LedcWrite 1 savedCh1]
          else [LedcWrite 0 12; LedcWrite 1 12])
      ++ [Delay intervalMs]
      ++ blink_loop n' savedCh0 savedCh1 lampWasOn intervalMs
  end%list.

(** [blinkLamp(count, intervalMs)] with [uint8_t count], [uint16_t
    intervalMs], and [savedCh0], [savedCh1] the [ledcRead] values; the
    closing [applyOutput()] is its two [ledcWrite] calls. *)
Definition blinkLamp (savedCh0 savedCh1 : Z) (l : Lamp) (count intervalMs : Z)
  : list PwmOp :=
  let '(ch0, ch1) := compute_channels (isOn l) (brightness l) (mode l) in
  (blink_loop (Z.to_nat (count mod 256)) savedCh0 savedCh1 (isOn l) (intervalMs mod 65536)
   ++ [LedcWrite 0 ch0; LedcWrite 1 ch1])%list.

(** [handleScheduleTick], with [now1] and [now2] its two [millis()]
    readings and [tm] the clock reading of the [checkSchedule] it calls. *)
Definition SCHEDULE_CHECK_INTERVAL : Z := 1000.

Definition handleScheduleTick (lastScheduleCheck : Z) (s : State) (now1 now2 : Z)
  (tm : option (Z * Z)) : Z * (State * list Effect) :=
  if ul_sub now1 lastScheduleCheck >=? SCHEDULE_CHECK_INTERVAL
  then (now2, checkSchedule s tm)
  else (lastScheduleCheck, (s, [])).

(** ** The event loop *)

(** The entry points [loop()] and the WebSocket task drive. *)
Inductive Event :=
  | Tick (tm : option (Z * Z))          (* checkSchedule, via handleScheduleTick *)
  | Button (now : Z) (pressed : bool)   (* handleButtonClicks *)
  | Rotary (pos : Z)                    (* handleRotaryEncoder *)
  | Message (m : Msg).                  (* onWSMsg *)

Definition step (s : State) (e : Event) : State * list Effect :=
  match e with
  | Tick tm => checkSchedule s tm
  | Button now pressed => handleButtonClicks s now pressed
  | Rotary pos => handleRotaryEncoder s pos
  | Message m => onWSMsg s m
  end.

Fixpoint run (s : State) (es : list Event) : State :=
  match es with
  | [] => s
  | e :: es' => run (fst (step s e)) es'
  end.


Definition reachable (s : State) : Prop := exists es, s = run init es.

(** ** Concrete messages and event sequences *)

Definition data_of_routine (r : Routine) : RoutineData :=
  mkRoutineData (Some (r_id r)) (Some (r_enabled r)) (Some (r_start_hour r))
    (Some (r_start_minute r)) (Some (r_end_hour r)) (Some (r_end_minute r))
    (Some (r_brightness r)) (Some (r_mode r)).

Definition data_of_alarm (a : Alarm) : AlarmData :=
  mkAlarmData (Some (a_id a)) (Some (a_enabled a)) (Some (a_wake_hour a))
    (Some (a_wake_minute a)) (Some (a_start_hour a)) (Some (a_start_minute a))
    (Some (a_duration_minutes a)).

Definition type_msg (t : MsgType) : Msg := mkMsg None None None None (Some t).

Definition upsert_routine_ev (r : Routine) : Event :=
  Message (type_msg (TRoutineSync (ActUpsert (Some (data_of_routine r))))).
Definition delete_routine_ev (id : Z) : Event :=
  Message (type_msg (TRoutineSync (ActDelete (Some id)))).
Definition upsert_alarm_ev (a : Alarm) : Event :=
  Message (type_msg (TAlarmSync (ActUpsert (Some (data_of_alarm a))))).

(** Three press/release pairs 100 ms apart, starting at [t] ms. *)
Definition triple_click_evs (t : Z) : list Event :=
  [Button t true; Button (t + 100) false; Button (t + 200) true;
   Button (t + 300) false; Button (t + 400) true; Button (t + 500) false].

(** Ten routines with ids 1..10, all valid. *)
Definition ten_routines : list Routine :=
  List.map (fun k => mkRoutine (Z.of_nat k) true 7 0 8 0 10 1) (seq 1 10).

(** ** General lemmas *)

Lemma find_index_lt {A} (idf : A -> Z) xs id i :
  find_index idf xs id = Some i -> (i < List.length xs)%nat.
Proof.
  revert i; induction xs as [|x xs IH]; simpl; intros i H; [discriminate|].
  destruct (idf x =? id).
  - inversion H; subst; lia.
  - destruct (find_index idf xs id) as [j|] eqn:E; simpl in H; [|discriminate].
    inversion H; subst. specialize (IH j eq_refl). lia.
Qed.

Lemma set_nth_length {A} (xs : list A) i v :
  List.length (set_nth xs i v) = List.length xs.
Proof.
  revert i; induction xs as [|x xs IH]; intros [|i]; simpl; auto.
Qed.

Lemma set_nth_same {A} (xs : list A) i v :
  (i < List.length xs)%nat -> nth_error (set_nth xs i v) i = Some v.
Proof.
  revert i; induction xs as [|x xs IH]; intros [|i] H; simpl in *; try lia; auto.
  apply IH; lia.
Qed.

Lemma set_nth_other {A} (xs : list A) i j v :
  i <> j -> nth_error (set_nth xs i v) j = nth_error xs j.
Proof.
  revert i j; induction xs as [|x xs IH]; intros [|i] [|j] H; simpl;
    try reflexivity; try (exfalso; lia).
  apply IH; lia.
Qed.

(** The tick leaves the store and only updates suppression windows. *)
Lemma checkSchedule_supp s h m :
  supp (fst (checkSchedule s (Some (h, m))))
  = updateSuppressionWindows (supp s) (h * 60 + m).
Proof.
  unfold checkSchedule; simpl.
  destruct (find_routine (routines s) (h * 60 + m)) as [r|].
  - unfold apply_routine; simpl.
    destruct (_ && _); [reflexivity|].
    destruct (_ || _); reflexivity.
  - destruct (routineActive (rslot s)); [reflexivity|].
    destruct (find_alarm (alarms s) (h * 60 + m)) as [a|].
    + unfold apply_alarm; simpl.
      destruct (_ && _); [reflexivity|].
      destruct (_ || _); reflexivity.
    + destruct (alarmActive (aslot s)); reflexivity.
Qed.

(** ** C10: the output mapping *)

(** C10. For every on/off flag, brightness in [0, 15] and mode, the
    channels written by [applyOutput] are (15, 15) when off, and otherwise,
    with inverted = 15 - max(1, brightness): (inverted, 15) for WARM,
    (15, inverted) for WHITE and (inverted, inverted) for BOTH. [applyOutput]
    is a function of the lamp fields alone. *)
Theorem applyOutput_mapping (on : bool) (b : Z) (m : Mode) :
  applyOutput (mkLamp on b m)
  = if negb on then EApplyOutput 15 15
    else let inverted := 15 - Z.max 1 b in
         match m with
         | MODE_WARM => EApplyOutput inverted 15
         | MODE_WHITE => EApplyOutput 15 inverted
         | MODE_BOTH => EApplyOutput inverted inverted
         end.
Proof.
  unfold applyOutput, compute_channels; simpl.
  destruct on; simpl; [destruct m|]; reflexivity.
Qed.

(** ** C9: routine upsert *)

(** C9. For a routine upsert whose fields validate to [r]: an existing id
    is overwritten in place (same count, every other entry unchanged); a
    new id is appended when fewer than 10 routines are stored; a new id
    with 10 or more stored fails with "Storage full" and leaves the store
    unchanged. *)
Theorem routine_upsert_semantics (rs : list Routine) (d : RoutineData) (r : Routine)
  (Hvalid : validate_routine d = inl r) :
  (forall i, find_index r_id rs (r_id r) = Some i ->
     let rs' := fst (handleRoutineSync rs (ActUpsert (Some d))) in
     rs' = set_nth rs i r /\ nth_error rs' i = Some r
     /\ (forall j, j <> i -> nth_error rs' j = nth_error rs j)
     /\ List.length rs' = List.length rs
     /\ snd (handleRoutineSync rs (ActUpsert (Some d)))
        = ESyncResponse "routine_sync_response" true "Routine synced successfully")
  /\ (find_index r_id rs (r_id r) = None -> Z.of_nat (List.length rs) < MAX_ROUTINES ->
      handleRoutineSync rs (ActUpsert (Some d))
      = ((rs ++ [r])%list,
         ESyncResponse "routine_sync_response" true "Routine synced successfully"))
  /\ (find_index r_id rs (r_id r) = None -> Z.of_nat (List.length rs) >= MAX_ROUTINES ->
      handleRoutineSync rs (ActUpsert (Some d))
      = (rs, ESyncResponse "routine_sync_response" false "Storage full")).
Proof.
  unfold handleRoutineSync; rewrite Hvalid; unfold upsert.
  split; [|split].
  - intros i Hi; rewrite Hi; simpl.
    pose proof (find_index_lt _ _ _ _ Hi).
    repeat split; auto using set_nth_same, set_nth_length.
    intros j Hj; apply set_nth_other; congruence.
  - intros Hn Hlt; rewrite Hn.
    replace (Z.of_nat (List.length rs) <? MAX_ROUTINES) with true
      by (symmetry; apply Z.ltb_lt; exact Hlt).
    reflexivity.
  - intros Hn Hge; rewrite Hn.
    replace (Z.of_nat (List.length rs) <? MAX_ROUTINES) with false
      by (symmetry; apply Z.ltb_ge; lia).
    reflexivity.
Qed.

(** An 11th distinct id on a full store fails and the store keeps its 10 entries. *)
Lemma routine_upsert_semantics_witness :
  validate_routine (data_of_routine (mkRoutine 11 true 6 30 7 0 12 2))
    = inl (mkRoutine 11 true 6 30 7 0 12 2)
  /\ List.length (fst (handleRoutineSync ten_routines
                        (ActUpsert (Some (data_of_routine (mkRoutine 11 true 6 30 7 0 12 2))))))
     = 10%nat
  /\ handleRoutineSync ten_routines
       (ActUpsert (Some (data_of_routine (mkRoutine 11 true 6 30 7 0 12 2))))
     = (ten_routines, ESyncResponse "routine_sync_response" false "Storage full").
Proof.
  assert (Hv : validate_routine (data_of_routine (mkRoutine 11 true 6 30 7 0 12 2))
               = inl (mkRoutine 11 true 6 30 7 0 12 2)) by reflexivity.
  destruct (routine_upsert_semantics ten_routines _ _ Hv) as [_ [_ H3]].
  assert (Hfull : handleRoutineSync ten_routines
       (ActUpsert (Some (data_of_routine (mkRoutine 11 true 6 30 7 0 12 2))))
     = (ten_routines, ESyncResponse "routine_sync_response" false "Storage full"))
    by (apply H3; [reflexivity | vm_compute; discriminate]).
  split; [exact Hv|]. split; [rewrite Hfull; reflexivity | exact Hfull].
Defined.

(** ** C4: routine end keeps the lamp *)

Definition routine_R : Routine := mkRoutine 7 true 9 10 9 40 5 0.

(** C4. When a routine is active and no enabled routine's window contains
    the current time, the tick clears routineActive, activeRoutineId,
    lastRoutineMinute and wasOffBeforeRoutine and leaves isOn, brightness
    and mode exactly as they were (the saved pre-routine state is not
    restored). *)
Theorem routine_end_keeps_lamp (s : State) (h m : Z)
  (Hact : routineActive (rslot s) = true)
  (Hnone : find_routine (routines s) (h * 60 + m) = None) :
  let s' := fst (checkSchedule s (Some (h, m))) in
  lamp s' = lamp s /\ routineActive (rslot s') = false
  /\ activeRoutineId (rslot s') = -1 /\ lastRoutineMinute (rslot s') = -1
  /\ wasOffBeforeRoutine (rslot s') = false.
Proof.
  unfold checkSchedule; simpl. rewrite Hnone, Hact. simpl.
  repeat split.
Qed.

Lemma routine_end_keeps_lamp_witness :
  let s := run init [upsert_routine_ev routine_R; Tick (Some (9, 10))] in
  routineActive (rslot s) = true /\ find_routine (routines s) (9 * 60 + 41) = None
  /\ lamp (fst (checkSchedule s (Some (9, 41)))) = mkLamp true 5 MODE_WARM
  /\ routineActive (rslot (fst (checkSchedule s (Some (9, 41))))) = false.
Proof.
  intro s.
  assert (H1 : routineActive (rslot s) = true) by (vm_compute; reflexivity).
  assert (H2 : find_routine (routines s) (9 * 60 + 41) = None) by (vm_compute; reflexivity).
  destruct (routine_end_keeps_lamp s 9 41 H1 H2) as [Hl [Ha _]].
  split; [exact H1|]. split; [exact H2|]. split; [|exact Ha].
  rewrite Hl. vm_compute. reflexivity.
Defined.

(** ** C7: manual control lock *)

Lemma set_clicks_lamp s c : lamp (set_clicks s c) = lamp s.
Proof. reflexivity. Qed.

Lemma set_clicks_locked s c :
  isManualControlLocked (set_clicks s c) = isManualControlLocked s.
Proof. reflexivity. Qed.

(** C7. While a routine, an alarm or sun sync is active: a button sample
    resolving to a single or double click only advances the decoder state
    (lamp unchanged, no effect at all, in particular no output
    recomputation); a rotary movement leaves the lamp unchanged with no
    effect; a sample resolving to a triple click runs [handleTripleClick].
    With no automation active, a single click toggles isOn and recomputes
    the output. *)
Theorem manual_lock (s : State) (Hlock : isManualControlLocked s = true) :
  (forall now p c' g, decode (clicks s) now p = (c', Some g) -> g <> TripleOrMore ->
     handleButtonClicks s now p = (set_clicks s c', [])
     /\ lamp (set_clicks s c') = lamp s)
  /\ (forall pos, lamp (fst (handleRotaryEncoder s pos)) = lamp s
                  /\ snd (handleRotaryEncoder s pos) = [])
  /\ (forall now p c', decode (clicks s) now p = (c', Some TripleOrMore) ->
        handleButtonClicks s now p = handleTripleClick (set_clicks s c'))
  /\ (forall s0, isManualControlLocked s0 = false ->
        let l := lamp s0 in
        let l' := mkLamp (negb (isOn l)) (brightness l) (mode l) in
        on_gesture s0 Single = (set_lamp s0 l', [applyOutput l'; ESendStateUpdate])).
Proof.
  split; [|split; [|split]].
  - intros now p c' g Hd Hg. unfold handleButtonClicks. rewrite Hd.
    split; [|reflexivity].
    destruct g; [| |contradiction]; simpl; rewrite set_clicks_locked, Hlock; reflexivity.
  - intros pos. unfold handleRotaryEncoder.
    destruct (pos =? lastPos s); [split; reflexivity|].
    replace (isManualControlLocked (set_lastPos s pos)) with true by (rewrite <- Hlock; reflexivity).
    split; reflexivity.
  - intros now p c' Hd. unfold handleButtonClicks. rewrite Hd. reflexivity.
  - intros s0 H0. simpl. rewrite H0. reflexivity.
Qed.

Definition locked_state : State :=
  run init [upsert_routine_ev routine_R; Tick (Some (9, 10));
            Button 100 true; Button 200 false].

Lemma manual_lock_witness :
  isManualControlLocked locked_state = true
  /\ handleButtonClicks locked_state 1000 false
     = (set_clicks locked_state (mkClickState 0 200 200 false 200), []).
Proof.
  assert (Hl : isManualControlLocked locked_state = true) by (vm_compute; reflexivity).
  split; [exact Hl|].
  destruct (manual_lock locked_state Hl) as [H1 _].
  apply (H1 1000 false (mkClickState 0 200 200 false 200) Single).
  - vm_compute. reflexivity.
  - discriminate.
Defined.

(** ** Frame lemmas: what each entry point leaves alone *)

Ltac destruct_lets :=
  repeat match goal with
  | |- context [let '(_, _) := ?x in _] => destruct x
  | |- context [match ?x with (_, _) => _ end] => destruct x
  end.

Lemma handle_type_frame s t :
  let s' := fst (handle_type s t) in
  supp s' = supp s /\ rslot s' = rslot s /\ aslot s' = aslot s /\ lamp s' = lamp s.
Proof.
  destruct t as [act|act|fr fa|ts|act src|]; simpl; destruct_lets; simpl; auto.
  - destruct ts; simpl; auto.
  - destruct act; simpl; auto.
Qed.

Lemma onWSMsg_frame s m :
  let s' := fst (onWSMsg s m) in
  supp s' = supp s /\ rslot s' = rslot s /\ aslot s' = aslot s.
Proof.
  unfold onWSMsg. destruct (direct_set (lamp s) m) as [l ch].
  destruct (m_type m) as [t|]; simpl; auto.
  pose proof (handle_type_frame (set_lamp s l) t) as (H1 & H2 & H3 & _).
  destruct (handle_type (set_lamp s l) t) as [s2 e2] eqn:E; simpl in *.
  rewrite H1, H2, H3; auto.
Qed.

Lemma handleRotaryEncoder_frame s pos :
  let s' := fst (handleRotaryEncoder s pos) in
  supp s' = supp s /\ rslot s' = rslot s /\ aslot s' = aslot s.
Proof.
  unfold handleRotaryEncoder.
  destruct (pos =? lastPos s); [simpl; auto|].
  destruct (isManualControlLocked _); [simpl; auto|].
  destruct (negb _); simpl; auto.
Qed.

Lemma on_gesture_frame s g :
  g <> TripleOrMore ->
  let s' := fst (on_gesture s g) in
  supp s' = supp s /\ rslot s' = rslot s /\ aslot s' = aslot s.
Proof.
  intros Hg. destruct g; [| |contradiction]; simpl;
    destruct (isManualControlLocked s); simpl; auto.
Qed.

(** Suppression flag of the routine after a triple click. *)
Lemma handleTripleClick_routineSuppressed s :
  routineSuppressed (supp (fst (handleTripleClick s)))
  = if routineActive (rslot s)
    then match findRoutineById (routines s) (activeRoutineId (rslot s)) with
         | Some _ => true | None => false end
    else routineSuppressed (supp s).
Proof.
  unfold handleTripleClick.
  destruct (routineActive (rslot s)) eqn:Ra;
  [destruct (findRoutineById (routines s) (activeRoutineId (rslot s)))|];
  destruct (alarmActive (aslot s)) eqn:Aa;
  try destruct (findAlarmById (alarms s) (activeAlarmId (aslot s)));
  simpl; destruct (sunSyncActive s); reflexivity.
Qed.

(** ** C1: routine suppression *)

Definition routine_A : Routine := mkRoutine 1 true 9 0 10 0 8 2.
Definition routine_B : Routine := mkRoutine 2 true 9 30 11 0 3 0.

(** Routine B is stored before A; A is applied at 09:00 and suppressed
    by a triple click; at 09:30 B (not suppressed) is first to match and
    becomes active; then B is deleted from the store. *)
Definition c1_prefix : list Event :=
  ([upsert_routine_ev routine_B; upsert_routine_ev routine_A; Tick (Some (9, 0))]
   ++ triple_click_evs 1000 ++ [Tick (Some (9, 30)); delete_routine_ev 2])%list.

(** A stored before B; A applied at 09:00, then suppressed. *)
Definition suppressed_A_state : State :=
  run init ([upsert_routine_ev routine_A; upsert_routine_ev routine_B; Tick (Some (9, 0))]
            ++ triple_click_evs 1000)%list.

(** C1 (as stated) fails: with A suppressed and the clock still inside
    A's captured window (09:30, window 09:00-10:00), a triple click while
    the active routine B no longer resolves in the store clears the flag,
    and at 09:31 routine A is applied again inside its window. *)
Lemma routine_suppression_cleared_by_override :
  let s := run init c1_prefix in
  routineSuppressed (supp s) = true
  /\ r_id (suppressedRoutine (supp s)) = 1
  /\ routine_window (suppressedRoutine (supp s)) (9 * 60 + 30) = true
  /\ routine_window (suppressedRoutine (supp s)) (9 * 60 + 31) = true
  /\ routineSuppressed (supp (run s (triple_click_evs 2000))) = false
  /\ lamp (run s (triple_click_evs 2000 ++ [Tick (Some (9, 31))])%list)
     = mkLamp true 8 MODE_BOTH
  /\ activeRoutineId (rslot (run s (triple_click_evs 2000 ++ [Tick (Some (9, 31))])%list))
     = 1.
Proof. vm_compute. repeat split. Qed.

(** C1 (amended). On a tick at time [cur]: (a) if, after the suppression
    windows are updated, the routine suppression is active and the first
    enabled routine whose window contains [cur] has the suppressed id, the
    tick applies no routine and has no effect besides that update; (b) a
    tick whose time lies outside the captured window clears the flag;
    (c) a tick inside the captured window keeps the flag and the snapshot.
    (d) Besides ticks, the only event that clears the flag is a button
    sample resolving to a triple click while a routine is active whose id
    no longer resolves in the store. *)
Theorem routine_suppression (s : State) (h m : Z) :
  let cur := h * 60 + m in
  let x := updateSuppressionWindows (supp s) cur in
  (forall r, routineSuppressed x = true -> find_routine (routines s) cur = Some r ->
     r_id (suppressedRoutine x) = r_id r ->
     checkSchedule s (Some (h, m)) = (set_supp s x, []))
  /\ (routineSuppressed (supp s) = true ->
      routine_window (suppressedRoutine (supp s)) cur = false ->
      routineSuppressed (supp (fst (checkSchedule s (Some (h, m))))) = false)
  /\ (routine_window (suppressedRoutine (supp s)) cur = true ->
      routineSuppressed (supp (fst (checkSchedule s (Some (h, m))))) = routineSuppressed (supp s)
      /\ suppressedRoutine (supp (fst (checkSchedule s (Some (h, m)))))
         = suppressedRoutine (supp s))
  /\ (forall e, (forall tm, e <> Tick (Some tm)) -> routineSuppressed (supp s) = true ->
      routineSuppressed (supp (fst (step s e))) = false ->
      exists now p c', e = Button now p
        /\ decode (clicks s) now p = (c', Some TripleOrMore)
        /\ routineActive (rslot s) = true
        /\ findRoutineById (routines s) (activeRoutineId (rslot s)) = None).
Proof.
  intros cur x. split; [|split; [|split]].
  - intros r H1 H2 H3. unfold checkSchedule. fold cur. fold x.
    change (routines (set_supp s x)) with (routines s). rewrite H2.
    unfold apply_routine. change (supp (set_supp s x)) with x.
    rewrite H1, H3, Z.eqb_refl. reflexivity.
  - intros H1 H2. rewrite checkSchedule_supp. fold cur.
    unfold updateSuppressionWindows; simpl. rewrite H1, H2. reflexivity.
  - intros H. rewrite checkSchedule_supp. fold cur.
    unfold updateSuppressionWindows; simpl. rewrite H.
    destruct (routineSuppressed (supp s)); simpl; auto.
  - intros e Hne H1 H2. destruct e as [tm|now p|pos|msg].
    + destruct tm as [[h' m']|].
      * exfalso. eapply Hne. reflexivity.
      * simpl in H2. congruence.
    + simpl in H2. unfold handleButtonClicks in H2.
      destruct (decode (clicks s) now p) as [c' g] eqn:Hd.
      destruct g as [g|]; [|simpl in H2; congruence].
      destruct g.
      * destruct (on_gesture_frame (set_clicks s c') Single) as [Hs _];
          [discriminate|]. rewrite Hs in H2. simpl in H2. congruence.
      * destruct (on_gesture_frame (set_clicks s c') Double) as [Hs _];
          [discriminate|]. rewrite Hs in H2. simpl in H2. congruence.
      * simpl in H2. rewrite handleTripleClick_routineSuppressed in H2.
        simpl in H2. exists now, p, c'. split; [reflexivity|]. split; [exact Hd|].
        destruct (routineActive (rslot s)); [|congruence].
        split; [reflexivity|].
        destruct (findRoutineById (routines s) (activeRoutineId (rslot s))); congruence.
    + destruct (handleRotaryEncoder_frame s pos) as [Hs _].
      simpl in H2. rewrite Hs in H2. congruence.
    + destruct (onWSMsg_frame s msg) as [Hs _].
      simpl in H2. rewrite Hs in H2. congruence.
Qed.

(** A stored before B, A suppressed: at 09:30 both A and B match, and
    the tick applies neither. *)
Lemma routine_suppression_witness :
  routine_window routine_B (9 * 60 + 30) = true
  /\ checkSchedule suppressed_A_state (Some (9, 30))
     = (set_supp suppressed_A_state
          (updateSuppressionWindows (supp suppressed_A_state) (9 * 60 + 30)), []).
Proof.
  split; [vm_compute; reflexivity|].
  destruct (routine_suppression suppressed_A_state 9 30) as [Ha _].
  apply (Ha routine_A); vm_compute; reflexivity.
Defined.

(** ** C2, C3: routine and alarm interplay *)

Lemma apply_routine_aslot s r m : aslot (fst (apply_routine s r m)) = aslot s.
Proof.
  unfold apply_routine. destruct (_ && _); [reflexivity|].
  destruct (_ || _); reflexivity.
Qed.

Lemma apply_alarm_rslot s a t m : rslot (fst (apply_alarm s a t m)) = rslot s.
Proof.
  unfold apply_alarm. destruct (_ && _); [reflexivity|].
  destruct (_ || _); reflexivity.
Qed.

(** A tick at which a routine is active before or after leaves the alarm
    slot untouched. *)
Lemma tick_aslot_frame s tm :
  let s' := fst (checkSchedule s tm) in
  routineActive (rslot s) = true \/ routineActive (rslot s') = true -> aslot s' = aslot s.
Proof.
  intros s' H. subst s'. destruct tm as [[h m]|]; [|reflexivity].
  unfold checkSchedule in *.
  destruct (find_routine (routines (set_supp s _)) _) as [r|].
  - rewrite apply_routine_aslot. reflexivity.
  - change (rslot (set_supp s (updateSuppressionWindows (supp s) (h * 60 + m))))
      with (rslot s) in *.
    destruct (routineActive (rslot s)) eqn:Ra; [reflexivity|].
    destruct H as [H|H]; [discriminate|].
    destruct (find_alarm _ _) as [a|].
    + rewrite apply_alarm_rslot in H. simpl in H. congruence.
    + destruct (alarmActive _); simpl in H; congruence.
Qed.

Lemma handleTripleClick_alarmActive s :
  alarmActive (aslot (fst (handleTripleClick s))) = false \/
  (alarmActive (aslot s) = false /\ aslot (fst (handleTripleClick s)) = aslot s).
Proof.
  unfold handleTripleClick.
  destruct (routineActive (rslot s));
  [destruct (findRoutineById (routines s) (activeRoutineId (rslot s)))|];
  destruct (alarmActive (aslot s)) eqn:Aa;
  try destruct (findAlarmById (alarms s) (activeAlarmId (aslot s)));
  simpl; destruct (sunSyncActive s); simpl; auto.
Qed.

Definition alarm_X : Alarm := mkAlarm 5 true 9 15 9 0 10.

(** Alarm X (09:00 to 09:15) becomes active at 09:00; routine R
    (09:10 to 09:40) becomes active at 09:10 while X is still active. *)
Definition c3_prefix : list Event :=
  [upsert_alarm_ev alarm_X; upsert_routine_ev routine_R;
   Tick (Some (9, 0)); Tick (Some (9, 10))].

(** C3 (as stated) fails: a reachable state has a routine and an alarm
    active at once. *)
Lemma routine_and_alarm_both_active :
  let s := run init c3_prefix in
  reachable s /\ routineActive (rslot s) = true /\ alarmActive (aslot s) = true.
Proof.
  split; [exists c3_prefix; reflexivity|]. vm_compute. split; reflexivity.
Qed.

(** C3 (amended). Routine activation does not clear the alarm slot; the
    priority is by evaluation order: a tick at which a routine is active
    before or after it leaves every alarm marker unchanged, and an alarm
    becomes active only on a tick at which no routine is active, neither
    before nor after. *)
Theorem alarm_only_without_routine (s : State) :
  (forall tm, let s' := fst (checkSchedule s tm) in
     routineActive (rslot s) = true \/ routineActive (rslot s') = true -> aslot s' = aslot s)
  /\ (forall e, alarmActive (aslot s) = false ->
        alarmActive (aslot (fst (step s e))) = true ->
        (exists tm, e = Tick tm) /\ routineActive (rslot s) = false
        /\ routineActive (rslot (fst (step s e))) = false).
Proof.
  split; [exact (tick_aslot_frame s)|].
  intros e H0 H1. destruct e as [tm|now p|pos|msg].
  - split; [exists tm; reflexivity|].
    change (step s (Tick tm)) with (checkSchedule s tm) in *.
    destruct (routineActive (rslot s)) eqn:R0.
    + rewrite (tick_aslot_frame s tm (or_introl R0)) in H1. congruence.
    + split; [reflexivity|].
      destruct (routineActive (rslot (fst (checkSchedule s tm)))) eqn:R1; [|reflexivity].
      rewrite (tick_aslot_frame s tm (or_intror R1)) in H1. congruence.
  - exfalso. simpl in H1. unfold handleButtonClicks in H1.
    destruct (decode (clicks s) now p) as [c' g] eqn:Hd.
    destruct g as [g|]; [|simpl in H1; congruence].
    destruct g.
    + destruct (on_gesture_frame (set_clicks s c') Single) as [_ [_ Ha]];
        [discriminate|]. rewrite Ha in H1. simpl in H1. congruence.
    + destruct (on_gesture_frame (set_clicks s c') Double) as [_ [_ Ha]];
        [discriminate|]. rewrite Ha in H1. simpl in H1. congruence.
    + simpl in H1. destruct (handleTripleClick_alarmActive (set_clicks s c'))
        as [Ha|[_ Ha]]; [congruence|]. rewrite Ha in H1. simpl in H1. congruence.
  - exfalso. destruct (handleRotaryEncoder_frame s pos) as [_ [_ Ha]].
    simpl in H1. rewrite Ha in H1. congruence.
  - exfalso. destruct (onWSMsg_frame s msg) as [_ [_ Ha]].
    simpl in H1. rewrite Ha in H1. congruence.
Qed.

(** C2 (as stated) fails: in the reachable state above, at 09:41 no
    enabled alarm window and no enabled routine window contains the time,
    yet the tick ends the routine and leaves the lamp at the routine's
    settings with the alarm still marked active; the lock-in happens one
    tick later. *)
Lemma alarm_end_deferred_by_routine :
  let s := run init c3_prefix in
  reachable s /\ alarmActive (aslot s) = true
  /\ find_alarm (alarms s) (9 * 60 + 41) = None
  /\ find_routine (routines s) (9 * 60 + 41) = None
  /\ lamp (fst (checkSchedule s (Some (9, 41)))) = mkLamp true 5 MODE_WARM
  /\ alarmActive (aslot (fst (checkSchedule s (Some (9, 41))))) = true
  /\ lamp (fst (checkSchedule (fst (checkSchedule s (Some (9, 41)))) (Some (9, 42))))
     = mkLamp true 15 MODE_BOTH.
Proof.
  split; [exists c3_prefix; reflexivity|]. vm_compute. repeat split.
Qed.

(** C2 (amended). When an alarm is active, no routine is active, and no
    enabled routine or alarm window contains the current time, the tick
    sets the lamp to on, brightness 15, mode BOTH (whatever the saved
    pre-alarm state), clears the alarm markers, and recomputes the output
    and publishes the state. *)
Theorem alarm_end_lock (s : State) (h m : Z)
  (Hr : routineActive (rslot s) = false)
  (Ha : alarmActive (aslot s) = true)
  (Hnr : find_routine (routines s) (h * 60 + m) = None)
  (Hna : find_alarm (alarms s) (h * 60 + m) = None) :
  let '(s', es) := checkSchedule s (Some (h, m)) in
  lamp s' = mkLamp true 15 MODE_BOTH
  /\ alarmActive (aslot s') = false /\ activeAlarmId (aslot s') = -1
  /\ lastAlarmMinute (aslot s') = -1 /\ wasOffBeforeAlarm (aslot s') = false
  /\ es = [applyOutput (mkLamp true 15 MODE_BOTH); ESendStateUpdate].
Proof.
  unfold checkSchedule; simpl. rewrite Hnr, Hr, Hna, Ha. simpl.
  repeat split.
Qed.

Lemma alarm_end_lock_witness :
  let s := run init [upsert_alarm_ev alarm_X; Tick (Some (9, 0))] in
  routineActive (rslot s) = false /\ alarmActive (aslot s) = true
  /\ lamp (fst (checkSchedule s (Some (9, 16)))) = mkLamp true 15 MODE_BOTH.
Proof.
  intro s.
  assert (H1 : routineActive (rslot s) = false) by (vm_compute; reflexivity).
  assert (H2 : alarmActive (aslot s) = true) by (vm_compute; reflexivity).
  split; [exact H1|]. split; [exact H2|].
  pose proof (alarm_end_lock s 9 16 H1 H2) as H.
  destruct (checkSchedule s (Some (9, 16))) as [s' es].
  apply H; vm_compute; reflexivity.
Defined.

(** ** C5: the alarm ramp *)

(** The spec's formula [round(clamp(c / d, 0, 1) * 15)], halves rounded up
    (a second definition, following the spec's words, for comparison with
    [alarm_brightness]). *)
Definition spec_round_brightness (c d : Z) : Z :=
  if c >=? d then 15 else if c <=? 0 then 0 else (30 * c + d) / (2 * d).

Definition zseq (lo n : Z) : list Z :=
  List.map (fun k => lo + Z.of_nat k) (seq 0 (Z.to_nat n)).

Lemma in_zseq lo n c : lo <= c < lo + n -> In c (zseq lo n).
Proof.
  intros H. unfold zseq. apply in_map_iff.
  exists (Z.to_nat (c - lo)). split; [lia|]. apply in_seq. lia.
Qed.

(** Every (elapsed minutes, duration) pair of a valid alarm, checked.
    The check is stated inline so that using it needs only beta steps. *)
Lemma ramp_check_ok :
  forallb (fun d => forallb (fun c => alarm_brightness c d =? Z.min 15 (15 * c / d))
                      (zseq 0 1440))
    (zseq 1 240) = true.
Proof. vm_compute. reflexivity. Qed.

(** On the whole domain the binary32 computation agrees with the exact
    truncated value [min(15, floor(15 c / d))]. *)
Lemma alarm_brightness_exact c d :
  0 <= c <= 1439 -> 1 <= d <= 240 -> alarm_brightness c d = Z.min 15 (15 * c / d).
Proof.
  intros Hc Hd.
  pose proof (proj1 (forallb_forall _ _) ramp_check_ok d) as Hd'.
  specialize (Hd' (in_zseq 1 240 d ltac:(lia))). cbv beta in Hd'.
  pose proof (proj1 (forallb_forall _ _) Hd' c) as Hc'.
  specialize (Hc' (in_zseq 0 1440 c ltac:(lia))). cbv beta in Hc'.
  apply Z.eqb_eq in Hc'. exact Hc'.
Qed.

Definition alarm_Y : Alarm := mkAlarm 9 true 9 30 9 0 2.

(** C5 (as stated) fails: one minute into a 2-minute ramp the progress is
    exactly 0.5 and the code sets brightness (int)(0.5 * 15) = 7, where
    round(7.5) = 8. *)
Lemma alarm_ramp_truncates :
  let s := run init [upsert_alarm_ev alarm_Y] in
  routineActive (rslot s) = false /\ find_routine (routines s) (9 * 60 + 1) = None
  /\ find_alarm (alarms s) (9 * 60 + 1) = Some alarm_Y
  /\ alarmSuppressed (supp s) = false /\ alarmActive (aslot s) = false
  /\ lamp (fst (checkSchedule s (Some (9, 1)))) = mkLamp true 7 MODE_BOTH
  /\ spec_round_brightness 1 2 = 8.
Proof. vm_compute. repeat split. Qed.

(** C5 (amended). When no routine is active or matches, the first enabled
    alarm matching the current time is not suppressed and an update is
    due, the tick sets isOn = true, mode = BOTH and brightness =
    min(15, floor(15 (current - start) / duration)), i.e. the progress
    clamped to [0, 1] times 15, truncated (not rounded); for a fixed
    duration this brightness is non-decreasing in the elapsed minutes. *)
Theorem alarm_ramp (s : State) (h m : Z) (a : Alarm)
  (Hh : 0 <= h <= 23) (Hm : 0 <= m <= 59)
  (Hsh : 0 <= a_start_hour a) (Hsm : 0 <= a_start_minute a)
  (Hdur : 1 <= a_duration_minutes a <= 240)
  (Hr : routineActive (rslot s) = false)
  (Hnr : find_routine (routines s) (h * 60 + m) = None)
  (Hfa : find_alarm (alarms s) (h * 60 + m) = Some a)
  (Hns : alarmSuppressed (updateSuppressionWindows (supp s) (h * 60 + m))
         && (a_id (suppressedAlarm (updateSuppressionWindows (supp s) (h * 60 + m)))
             =? a_id a) = false)
  (Hdue : negb (alarmActive (aslot s)) || negb (activeAlarmId (aslot s) =? a_id a)
          || negb (lastAlarmMinute (aslot s) =? m) = true) :
  lamp (fst (checkSchedule s (Some (h, m))))
  = mkLamp true
      (Z.min 15 (15 * (h * 60 + m - (a_start_hour a * 60 + a_start_minute a))
                 / a_duration_minutes a))
      MODE_BOTH
  /\ (forall c1 c2 d, 0 <= c1 <= c2 -> c2 <= 1439 -> 1 <= d <= 240 ->
        alarm_brightness c1 d <= alarm_brightness c2 d).
Proof.
  split.
  - pose proof (find_some _ _ Hfa) as [_ Hmatch].
    apply andb_prop in Hmatch as [_ Hmatch]. unfold alarm_matches in Hmatch.
    apply andb_prop in Hmatch as [H1 H2].
    apply Z.geb_le in H1. apply Z.leb_le in H2.
    unfold checkSchedule. cbv beta iota zeta.
    set (x := updateSuppressionWindows (supp s) (h * 60 + m)) in *.
    change (routines (set_supp s x)) with (routines s).
    change (rslot (set_supp s x)) with (rslot s).
    change (alarms (set_supp s x)) with (alarms s).
    rewrite Hnr, Hr, Hfa. unfold apply_alarm.
    change (supp (set_supp s x)) with x.
    change (aslot (set_supp s x)) with (aslot s).
    rewrite Hns, Hdue. cbv iota.
    rewrite alarm_brightness_exact; [reflexivity | lia | lia].
  - intros c1 c2 d Hc Hc2 Hd.
    rewrite !alarm_brightness_exact by lia.
    apply Z.min_le_compat_l. apply Z.div_le_mono; lia.
Qed.

Lemma alarm_ramp_witness :
  let s := run init [upsert_alarm_ev alarm_Y] in
  lamp (fst (checkSchedule s (Some (9, 1)))) = mkLamp true 7 MODE_BOTH.
Proof.
  intro s.
  destruct (alarm_ramp s 9 1 alarm_Y ltac:(lia) ltac:(lia)
              ltac:(simpl; lia) ltac:(simpl; lia) ltac:(simpl; lia)
              ltac:(vm_compute; reflexivity) ltac:(vm_compute; reflexivity)
              ltac:(vm_compute; reflexivity) ltac:(vm_compute; reflexivity)
              ltac:(vm_compute; reflexivity)) as [H _].
  rewrite H. reflexivity.
Defined.

(** ** C6: the gesture decoder *)






(** ** C8: remote direct state set *)

Lemma Mode_eqb_eq a b : Mode_eqb a b = true -> a = b.
Proof. destruct a, b; simpl; congruence. Qed.

Lemma onWSMsg_lamp s m :
  lamp (fst (onWSMsg s m)) = fst (direct_set (lamp s) m).
Proof.
  unfold onWSMsg. destruct (direct_set (lamp s) m) as [l ch].
  destruct (m_type m) as [t|]; simpl; auto.
  pose proof (handle_type_frame (set_lamp s l) t) as (_ & _ & _ & H4).
  destruct (handle_type (set_lamp s l) t) as [s2 e2] eqn:E; simpl in *.
  rewrite H4. reflexivity.
Qed.

Lemma constrain_range x lo hi : lo <= hi -> lo <= constrain x lo hi <= hi.
Proof.
  intros H. unfold constrain.
  destruct (x <? lo) eqn:E1; [lia|].
  destruct (x >? hi) eqn:E2; [lia|].
  apply Z.ltb_ge in E1. rewrite Z.gtb_ltb, Z.ltb_ge in E2. lia.
Qed.

(** The fields set by [direct_set]. *)
Lemma direct_set_fields l m :
  let l' := fst (direct_set l m) in
  brightness l' = match m_brightness m with
                  | Some v => if isOn l && (constrain v 0 15 <? 1) then 1
                              else constrain v 0 15
                  | None => brightness l end
  /\ mode l' = match m_mode m with
               | Some v => Mode_of_int (constrain v 0 2) | None => mode l end
  /\ isOn l' = match m_on m with Some b => b | None => isOn l end.
Proof.
  destruct l as [on b md], m as [mb mm mo mr mt]; unfold direct_set; simpl.
  destruct mb as [v|]; simpl;
  [destruct ((if on && (constrain v 0 15 <? 1) then 1 else constrain v 0 15) =? b) eqn:Eb;
   simpl; [apply Z.eqb_eq in Eb|] |];
  (destruct mm as [w|]; simpl;
   [destruct (Mode_eqb (Mode_of_int (constrain w 0 2)) _) eqn:Em; simpl;
    [apply Mode_eqb_eq in Em|] |]);
  (destruct mo as [o|]; simpl;
   [destruct (Bool.eqb o _) eqn:Eo; simpl; [apply Bool.eqb_prop in Eo|] |]);
  repeat split; congruence.
Qed.

Definition msg_on_off (b : bool) : Msg := mkMsg None None (Some b) None None.

(** C8 (as stated) fails: with the lamp off, a single message carrying
    [on = true] and [brightness = 0] leaves the lamp on with stored
    brightness 0, because the [>= 1] floor is decided on the value of
    [isOn] before the [on] member is processed. *)
Lemma remote_on_with_zero_brightness :
  let s := fst (onWSMsg init (msg_on_off false)) in
  lamp s = mkLamp false 0 MODE_BOTH
  /\ lamp (fst (onWSMsg s (mkMsg (Some 0) None (Some true) None None)))
     = mkLamp true 0 MODE_BOTH.
Proof. vm_compute. split; reflexivity. Qed.

(** C8 (amended). For every state and inbound message, the lamp after the
    message depends only on the lamp before it and on the message (not on
    the manual lock): brightness becomes [constrain(v,0,15)] raised to 1
    when the lamp was on before the message, mode becomes
    [constrain(v,0,2)] and on/off takes the given value; absent members
    leave the field unchanged. The stored brightness afterwards lies in
    [0,15] whenever the message carried a brightness or it did before, and
    it is at least 1 when the lamp was on before a message carrying a
    brightness. *)
Theorem direct_set_semantics (s : State) (m : Msg) :
  let l' := lamp (fst (onWSMsg s m)) in
  (forall s2, lamp s2 = lamp s -> lamp (fst (onWSMsg s2 m)) = l')
  /\ (forall v, m_brightness m = Some v ->
        brightness l' = (if isOn (lamp s) && (constrain v 0 15 <? 1) then 1
                         else constrain v 0 15))
  /\ (m_brightness m = None -> brightness l' = brightness (lamp s))
  /\ (forall v, m_mode m = Some v -> mode l' = Mode_of_int (constrain v 0 2))
  /\ (m_mode m = None -> mode l' = mode (lamp s))
  /\ (forall b, m_on m = Some b -> isOn l' = b)
  /\ (m_on m = None -> isOn l' = isOn (lamp s))
  /\ ((m_brightness m <> None \/ 0 <= brightness (lamp s) <= 15) ->
        0 <= brightness l' <= 15)
  /\ (isOn (lamp s) = true -> m_brightness m <> None -> 1 <= brightness l').
Proof.
  intro l'. subst l'. rewrite onWSMsg_lamp.
  split; [intros s2 E; rewrite onWSMsg_lamp, E; reflexivity|].
  pose proof (direct_set_fields (lamp s) m) as (Hb & Hm & Ho).
  destruct (fst (direct_set (lamp s) m)) as [on' b' md']; simpl in *.
  destruct (lamp s) as [on b md]; simpl in *.
  destruct (m_brightness m) as [v|];
  destruct (m_mode m) as [w|]; destruct (m_on m) as [o|]; subst;
  repeat split; intros;
  repeat match goal with
         | H : Some _ = Some _ |- _ => injection H as <-
         | H : None <> None |- _ => exfalso; apply H; reflexivity
         | H : Some _ = None |- _ => discriminate H
         | H : None = Some _ |- _ => discriminate H
         | H : _ \/ _ |- _ => destruct H
         end;
  try reflexivity; try lia.
  all: pose proof (constrain_range v 0 15 ltac:(lia)).
  all: destruct (on && (constrain v 0 15 <? 1)) eqn:E; try lia.
  all: subst on; simpl in E; apply Z.ltb_ge in E; lia.
Qed.


(** * Further properties of the firmware

    Invariants of the store and of the lamp along every execution,
    round trips of the sync messages and of the manual controls, and
    edge behaviour of the schedule tick, the decoder and the blink. *)

(** ** Store invariants *)

Definition in_range (x lo hi : Z) : bool := (lo <=? x) && (x <=? hi).

(** The ranges [handleRoutineSync] and [handleFullSync] check. *)
Definition routine_valid (r : Routine) : bool :=
  in_range (r_id r) 0 32767 && in_range (r_start_hour r) 0 23
  && in_range (r_start_minute r) 0 59 && in_range (r_end_hour r) 0 23
  && in_range (r_end_minute r) 0 59 && in_range (r_brightness r) 0 15
  && in_range (r_mode r) 0 2.

Definition alarm_valid (a : Alarm) : bool :=
  in_range (a_id a) 0 32767 && in_range (a_wake_hour a) 0 23
  && in_range (a_wake_minute a) 0 59 && in_range (a_start_hour a) 0 23
  && in_range (a_start_minute a) 0 59 && in_range (a_duration_minutes a) 1 240.

Definition store_ok (rs : list Routine) (al : list Alarm) : Prop :=
  (List.length rs <= 10)%nat /\ (List.length al <= 5)%nat
  /\ forallb routine_valid rs = true /\ forallb alarm_valid al = true.

Lemma readIntField_range v lo hi x :
  readIntField v lo hi = Some x -> in_range x lo hi = true.
Proof.
  unfold readIntField, in_range. destruct v as [y|]; [|discriminate].
  destruct (y <? lo) eqn:E1; destruct (y >? hi) eqn:E2; simpl; try discriminate.
  intros H; inversion H; subst.
  apply Z.ltb_ge in E1. rewrite Z.gtb_ltb, Z.ltb_ge in E2.
  apply andb_true_iff; split; apply Z.leb_le; lia.
Qed.

Lemma readIntField_some x lo hi :
  in_range x lo hi = true -> readIntField (Some x) lo hi = Some x.
Proof.
  unfold readIntField, in_range. intros H. apply andb_true_iff in H as [H1 H2].
  apply Z.leb_le in H1, H2.
  replace (x <? lo) with false by (symmetry; apply Z.ltb_ge; lia).
  replace (x >? hi) with false by (symmetry; rewrite Z.gtb_ltb; apply Z.ltb_ge; lia).
  reflexivity.
Qed.

Lemma validate_routine_valid d r :
  validate_routine d = inl r -> routine_valid r = true.
Proof.
  unfold validate_routine.
  destruct (readIntField (rd_id d) 0 32767) eqn:E1; [|discriminate].
  destruct (rd_enabled d); [|discriminate].
  destruct (readIntField (rd_start_hour d) 0 23) eqn:E2;
  destruct (readIntField (rd_start_minute d) 0 59) eqn:E3;
  destruct (readIntField (rd_end_hour d) 0 23) eqn:E4;
  destruct (readIntField (rd_end_minute d) 0 59) eqn:E5; try discriminate.
  destruct (readIntField (rd_brightness d) 0 15) eqn:E6; [|discriminate].
  destruct (readIntField (rd_mode d) 0 2) eqn:E7; [|discriminate].
  intros H; inversion H; subst. unfold routine_valid; simpl.
  repeat match goal with H : readIntField _ _ _ = Some _ |- _ =>
    apply readIntField_range in H; rewrite H; clear H end.
  reflexivity.
Qed.

Lemma validate_alarm_valid d a :
  validate_alarm d = inl a -> alarm_valid a = true.
Proof.
  unfold validate_alarm.
  destruct (readIntField (ad_id d) 0 32767) eqn:E1; [|discriminate].
  destruct (ad_enabled d); [|discriminate].
  destruct (readIntField (ad_wake_hour d) 0 23) eqn:E2;
  destruct (readIntField (ad_wake_minute d) 0 59) eqn:E3;
  destruct (readIntField (ad_start_hour d) 0 23) eqn:E4;
  destruct (readIntField (ad_start_minute d) 0 59) eqn:E5; try discriminate.
  destruct (readIntField (ad_duration_minutes d) 1 240) eqn:E6; [|discriminate].
  intros H; inversion H; subst. unfold alarm_valid; simpl.
  repeat match goal with H : readIntField _ _ _ = Some _ |- _ =>
    apply readIntField_range in H; rewrite H; clear H end.
  reflexivity.
Qed.

Lemma validate_routine_data r :
  routine_valid r = true -> validate_routine (data_of_routine r) = inl r.
Proof.
  destruct r as [id en sh sm eh em b m]. unfold routine_valid; simpl.
  intros H. repeat rewrite andb_true_iff in H.
  destruct H as [[[[[[H1 H2] H3] H4] H5] H6] H7].
  unfold validate_routine; cbn -[readIntField].
  rewrite !readIntField_some by assumption. reflexivity.
Qed.

Lemma validate_alarm_data a :
  alarm_valid a = true -> validate_alarm (data_of_alarm a) = inl a.
Proof.
  destruct a as [id en wh wm sh sm d]. unfold alarm_valid; simpl.
  intros H. repeat rewrite andb_true_iff in H.
  destruct H as [[[[[H1 H2] H3] H4] H5] H6].
  unfold validate_alarm; cbn -[readIntField].
  rewrite !readIntField_some by assumption. reflexivity.
Qed.

Lemma forallb_set_nth {A} (P : A -> bool) xs i v :
  forallb P xs = true -> P v = true -> forallb P (set_nth xs i v) = true.
Proof.
  revert i; induction xs as [|x xs IH]; intros [|i] H Hv; simpl in *; auto;
    apply andb_true_iff in H as [H1 H2]; rewrite ?Hv, ?H1, ?H2, ?IH; auto.
Qed.

Lemma upsert_ok {A} (P : A -> bool) idf cap xs r xs' :
  upsert idf cap xs r = Some xs' ->
  forallb P xs = true -> P r = true ->
  forallb P xs' = true
  /\ (Z.of_nat (List.length xs) <= cap -> Z.of_nat (List.length xs') <= cap).
Proof.
  unfold upsert. intros H HP Hr.
  destruct (find_index idf xs (idf r)) as [i|].
  - inversion H; subst. rewrite set_nth_length. split; auto.
    apply forallb_set_nth; auto.
  - destruct (Z.of_nat (List.length xs) <? cap) eqn:E; [|discriminate].
    inversion H; subst. apply Z.ltb_lt in E.
    rewrite forallb_app, length_app; simpl. rewrite HP, Hr. split; [reflexivity|lia].
Qed.

Lemma remove_first_ok {A} (P : A -> bool) idf xs id xs' :
  remove_first idf xs id = Some xs' ->
  forallb P xs = true -> forallb P xs' = true /\ S (List.length xs') = List.length xs.
Proof.
  revert xs'; induction xs as [|x xs IH]; simpl; intros xs' H HP; [discriminate|].
  apply andb_true_iff in HP as [H1 H2].
  destruct (idf x =? id).
  - inversion H; subst; auto.
  - destruct (remove_first idf xs id) as [ys|] eqn:E; simpl in H; [|discriminate].
    inversion H; subst. destruct (IH ys eq_refl H2) as [IH1 IH2].
    simpl. rewrite H1, IH1. auto.
Qed.

Lemma fill_ok {D A} (P : A -> bool) (validate : D -> A + string) cap items acc inv :
  (forall d x, validate d = inl x -> P x = true) ->
  forallb P acc = true -> Z.of_nat (List.length acc) <= cap ->
  forallb P (fst (fill validate cap items acc inv)) = true
  /\ Z.of_nat (List.length (fst (fill validate cap items acc inv))) <= cap.
Proof.
  intros Hv. revert acc inv; induction items as [|d items IH]; intros acc inv HP Hl;
    simpl; auto.
  destruct (Z.of_nat (List.length acc) >=? cap) eqn:E; simpl; auto.
  destruct (validate d) as [x|] eqn:Ed; apply IH; auto.
  - rewrite forallb_app; simpl. rewrite HP, (Hv d x Ed). reflexivity.
  - rewrite length_app; simpl. rewrite Z.geb_leb in E. apply Z.leb_gt in E. lia.
Qed.

Lemma handleRoutineSync_ok rs act :
  forallb routine_valid rs = true -> (List.length rs <= 10)%nat ->
  forallb routine_valid (fst (handleRoutineSync rs act)) = true
  /\ (List.length (fst (handleRoutineSync rs act)) <= 10)%nat.
Proof.
  intros HP Hl. destruct act as [|[d|]|idv|]; simpl; auto.
  - destruct (validate_routine d) as [r|] eqn:Ev; simpl; auto.
    destruct (upsert r_id MAX_ROUTINES rs r) as [rs'|] eqn:Eu; simpl; auto.
    destruct (upsert_ok routine_valid _ _ _ _ _ Eu HP (validate_routine_valid _ _ Ev))
      as [H1 H2].
    split; auto. unfold MAX_ROUTINES in H2. lia.
  - destruct (readIntField idv 0 32767) as [id|]; simpl; auto.
    destruct (remove_first r_id rs id) as [rs'|] eqn:Er; simpl; auto.
    destruct (remove_first_ok routine_valid _ _ _ _ Er HP). split; auto. lia.
Qed.

Lemma handleAlarmSync_ok al act :
  forallb alarm_valid al = true -> (List.length al <= 5)%nat ->
  forallb alarm_valid (fst (handleAlarmSync al act)) = true
  /\ (List.length (fst (handleAlarmSync al act)) <= 5)%nat.
Proof.
  intros HP Hl. destruct act as [|[d|]|idv|]; simpl; auto.
  - destruct (validate_alarm d) as [a|] eqn:Ev; simpl; auto.
    destruct (upsert a_id MAX_ALARMS al a) as [al'|] eqn:Eu; simpl; auto.
    destruct (upsert_ok alarm_valid _ _ _ _ _ Eu HP (validate_alarm_valid _ _ Ev))
      as [H1 H2].
    split; auto. unfold MAX_ALARMS in H2. lia.
  - destruct (readIntField idv 0 32767) as [id|]; simpl; auto.
    destruct (remove_first a_id al id) as [al'|] eqn:Er; simpl; auto.
    destruct (remove_first_ok alarm_valid _ _ _ _ Er HP). split; auto. lia.
Qed.

Lemma handleFullSync_ok fr fa :
  let '(rs, al, _) := handleFullSync fr fa in store_ok rs al.
Proof.
  unfold handleFullSync.
  assert (Hr : forallb routine_valid (fst (fill_field validate_routine MAX_ROUTINES fr)) = true
               /\ Z.of_nat (List.length (fst (fill_field validate_routine MAX_ROUTINES fr)))
                  <= MAX_ROUTINES).
  { destruct fr; simpl; try (split; [reflexivity|unfold MAX_ROUTINES; lia]).
    apply fill_ok; [exact validate_routine_valid|reflexivity|simpl; unfold MAX_ROUTINES; lia]. }
  assert (Ha : forallb alarm_valid (fst (fill_field validate_alarm MAX_ALARMS fa)) = true
               /\ Z.of_nat (List.length (fst (fill_field validate_alarm MAX_ALARMS fa)))
                  <= MAX_ALARMS).
  { destruct fa; simpl; try (split; [reflexivity|unfold MAX_ALARMS; lia]).
    apply fill_ok; [exact validate_alarm_valid|reflexivity|simpl; unfold MAX_ALARMS; lia]. }
  destruct (fill_field validate_routine MAX_ROUTINES fr) as [rs ir].
  destruct (fill_field validate_alarm MAX_ALARMS fa) as [al ia].
  simpl in *. unfold MAX_ROUTINES, MAX_ALARMS in *.
  destruct Hr, Ha. repeat split; auto; lia.
Qed.

Ltac split_branches :=
  repeat (match goal with
          | |- context [if ?b then _ else _] => destruct b
          | |- context [match ?x with _ => _ end] => destruct x
          end; simpl); auto.

Lemma checkSchedule_store s tm :
  routines (fst (checkSchedule s tm)) = routines s
  /\ alarms (fst (checkSchedule s tm)) = alarms s.
Proof.
  destruct tm as [[h m]|]; [|auto].
  unfold checkSchedule, apply_routine, end_routine, apply_alarm, end_alarm.
  split_branches.
Qed.

Lemma handleTripleClick_store s :
  routines (fst (handleTripleClick s)) = routines s
  /\ alarms (fst (handleTripleClick s)) = alarms s
  /\ lamp (fst (handleTripleClick s)) = lamp s.
Proof.
  unfold handleTripleClick. split_branches.
Qed.

Lemma handleButtonClicks_store s now p :
  routines (fst (handleButtonClicks s now p)) = routines s
  /\ alarms (fst (handleButtonClicks s now p)) = alarms s.
Proof.
  unfold handleButtonClicks. destruct (decode (clicks s) now p) as [c' [g|]]; simpl; auto.
  destruct g; simpl.
  - destruct (isManualControlLocked _); simpl; auto.
  - destruct (isManualControlLocked _); simpl; auto.
  - destruct (handleTripleClick_store (set_clicks s c')) as [H1 [H2 _]]. auto.
Qed.

Lemma handleRotaryEncoder_store s pos :
  routines (fst (handleRotaryEncoder s pos)) = routines s
  /\ alarms (fst (handleRotaryEncoder s pos)) = alarms s.
Proof.
  unfold handleRotaryEncoder. split_branches.
Qed.

Lemma onWSMsg_store_ok s m :
  store_ok (routines s) (alarms s) ->
  store_ok (routines (fst (onWSMsg s m))) (alarms (fst (onWSMsg s m))).
Proof.
  intros (H1 & H2 & H3 & H4). unfold onWSMsg.
  destruct (direct_set (lamp s) m) as [l ch].
  destruct (m_type m) as [t|]; simpl; [|repeat split; auto].
  destruct t as [act|act|fr fa|[ts|]|[a|] src|]; simpl.
  - destruct (handleRoutineSync_ok (routines s) act H3 H1).
    destruct (handleRoutineSync (routines s) act) as [rs e]; simpl in *.
    repeat split; auto.
  - destruct (handleAlarmSync_ok (alarms s) act H4 H2).
    destruct (handleAlarmSync (alarms s) act) as [al e]; simpl in *.
    repeat split; auto.
  - pose proof (handleFullSync_ok fr fa) as Hf.
    destruct (handleFullSync fr fa) as [[rs al] e]; simpl in *. exact Hf.
  - repeat split; auto.
  - repeat split; auto.
  - unfold handleSunSyncState; simpl. repeat split; auto.
  - repeat split; auto.
  - repeat split; auto.
Qed.

Lemma step_store_ok s e :
  store_ok (routines s) (alarms s) ->
  store_ok (routines (fst (step s e))) (alarms (fst (step s e))).
Proof.
  intros H. destruct e as [tm|now p|pos|m]; simpl.
  - destruct (checkSchedule_store s tm) as [-> ->]. exact H.
  - destruct (handleButtonClicks_store s now p) as [-> ->]. exact H.
  - destruct (handleRotaryEncoder_store s pos) as [-> ->]. exact H.
  - apply onWSMsg_store_ok; exact H.
Qed.

Lemma run_store_ok s es :
  store_ok (routines s) (alarms s) -> store_ok (routines (run s es)) (alarms (run s es)).
Proof.
  revert s; induction es as [|e es IH]; simpl; intros s H; auto.
  apply IH, step_store_ok, H.
Qed.

(** In every reachable state the store holds at most [MAX_ROUTINES]
    routines and [MAX_ALARMS] alarms, and every stored entry has its fields
    in the ranges the sync handlers validate. *)
Theorem store_invariant (s : State) (Hr : reachable s) :
  (List.length (routines s) <= 10)%nat /\ (List.length (alarms s) <= 5)%nat
  /\ Forall (fun r => routine_valid r = true) (routines s)
  /\ Forall (fun a => alarm_valid a = true) (alarms s).
Proof.
  destruct Hr as [es ->].
  destruct (run_store_ok init es) as (H1 & H2 & H3 & H4);
    [repeat split; simpl; lia|].
  rewrite forallb_forall in H3, H4.
  repeat split; auto; apply Forall_forall; auto.
Qed.

(** ** Brightness stays within [0, 15] *)

(** A schedule tick reads a valid wall-clock time ([tm_hour], [tm_min]). *)
Definition valid_event (e : Event) : Prop :=
  match e with
  | Tick (Some (h, m)) => 0 <= h <= 23 /\ 0 <= m <= 59
  | _ => True
  end.

Lemma find_routine_valid rs cur r :
  forallb routine_valid rs = true -> find_routine rs cur = Some r -> routine_valid r = true.
Proof.
  intros H Hf. apply find_some in Hf as [Hin _].
  rewrite forallb_forall in H. auto.
Qed.

Lemma find_alarm_props al cur a :
  forallb alarm_valid al = true -> find_alarm al cur = Some a ->
  alarm_valid a = true /\ a_start_hour a * 60 + a_start_minute a <= cur.
Proof.
  intros H Hf. apply find_some in Hf as [Hin Hm].
  rewrite forallb_forall in H. split; auto.
  apply andb_true_iff in Hm as [_ Hm]. unfold alarm_matches in Hm.
  apply andb_true_iff in Hm as [Hm _]. rewrite Z.geb_le in Hm. lia.
Qed.

Lemma alarm_valid_ranges a :
  alarm_valid a = true ->
  0 <= a_start_hour a /\ 0 <= a_start_minute a /\ 1 <= a_duration_minutes a <= 240.
Proof.
  unfold alarm_valid, in_range. intros H. repeat rewrite andb_true_iff in H.
  repeat match goal with H : _ /\ _ |- _ => destruct H end.
  repeat match goal with H : (_ <=? _) = true |- _ => apply Z.leb_le in H end. lia.
Qed.

Lemma routine_valid_brightness r :
  routine_valid r = true -> 0 <= r_brightness r <= 15.
Proof.
  unfold routine_valid, in_range. intros H. repeat rewrite andb_true_iff in H.
  repeat match goal with H : _ /\ _ |- _ => destruct H end.
  repeat match goal with H : (_ <=? _) = true |- _ => apply Z.leb_le in H end. lia.
Qed.

Definition lamp_ok (s : State) : Prop := 0 <= brightness (lamp s) <= 15.

Lemma checkSchedule_lamp_ok s h m :
  store_ok (routines s) (alarms s) -> 0 <= h <= 23 -> 0 <= m <= 59 ->
  lamp_ok s -> lamp_ok (fst (checkSchedule s (Some (h, m)))).
Proof.
  intros (_ & _ & Hr & Ha) Hh Hm Hl. unfold checkSchedule, lamp_ok in *.
  set (x := updateSuppressionWindows (supp s) (h * 60 + m)).
  change (routines (set_supp s x)) with (routines s).
  change (alarms (set_supp s x)) with (alarms s).
  change (rslot (set_supp s x)) with (rslot s).
  change (aslot (set_supp s x)) with (aslot s).
  destruct (find_routine (routines s) (h * 60 + m)) as [r|] eqn:Ef.
  - pose proof (routine_valid_brightness r (find_routine_valid _ _ _ Hr Ef)).
    unfold apply_routine.
    destruct (_ && _); [exact Hl|].
    destruct (_ || _); simpl; [lia|exact Hl].
  - destruct (routineActive (rslot s)); [exact Hl|].
    destruct (find_alarm (alarms s) (h * 60 + m)) as [a|] eqn:Ea.
    + destruct (find_alarm_props _ _ _ Ha Ea) as [Hv Hs].
      destruct (alarm_valid_ranges a Hv) as (H1 & H2 & H3).
      unfold apply_alarm.
      destruct (_ && _); [exact Hl|].
      destruct (_ || _); simpl; [|exact Hl].
      rewrite alarm_brightness_exact by lia.
      assert (0 <= 15 * (h * 60 + m - (a_start_hour a * 60 + a_start_minute a))
                    / a_duration_minutes a) by (apply Z.div_pos; lia).
      lia.
    + destruct (alarmActive (aslot s)); simpl; [lia|exact Hl].
Qed.

Lemma handleButtonClicks_lamp_ok s now p :
  lamp_ok s -> lamp_ok (fst (handleButtonClicks s now p)).
Proof.
  unfold handleButtonClicks, lamp_ok. intros Hl.
  destruct (decode (clicks s) now p) as [c' [g|]]; simpl; auto.
  destruct g; simpl.
  - destruct (isManualControlLocked _); simpl; auto.
  - destruct (isManualControlLocked _); simpl; auto.
  - destruct (handleTripleClick_store (set_clicks s c')) as [_ [_ ->]]. exact Hl.
Qed.

Lemma handleRotaryEncoder_lamp_ok s pos :
  lamp_ok s -> lamp_ok (fst (handleRotaryEncoder s pos)).
Proof.
  unfold handleRotaryEncoder, lamp_ok. intros Hl.
  destruct (pos =? lastPos s); [exact Hl|].
  destruct (isManualControlLocked _); [exact Hl|].
  destruct (negb _); simpl; [|exact Hl].
  destruct (isOn (lamp s));
    [pose proof (constrain_range (brightness (lamp s) + (pos - lastPos s) * 1) 1 15)
    |pose proof (constrain_range (brightness (lamp s) + (pos - lastPos s) * 1) 0 15)];
    simpl in *; lia.
Qed.

Lemma onWSMsg_lamp_ok s m : lamp_ok s -> lamp_ok (fst (onWSMsg s m)).
Proof.
  unfold lamp_ok. intros Hl. rewrite onWSMsg_lamp.
  destruct (direct_set_fields (lamp s) m) as [Hb _]. rewrite Hb.
  destruct (m_brightness m) as [v|]; [|exact Hl].
  pose proof (constrain_range v 0 15 ltac:(lia)).
  destruct (_ && _); lia.
Qed.

Lemma step_lamp_ok s e :
  valid_event e -> store_ok (routines s) (alarms s) -> lamp_ok s ->
  lamp_ok (fst (step s e)).
Proof.
  intros He Hs Hl. destruct e as [[[h m]|]|now p|pos|msg]; simpl.
  - destruct He. apply checkSchedule_lamp_ok; auto.
  - exact Hl.
  - apply handleButtonClicks_lamp_ok; exact Hl.
  - apply handleRotaryEncoder_lamp_ok; exact Hl.
  - apply onWSMsg_lamp_ok; exact Hl.
Qed.

(** With valid clock readings, the stored brightness stays within
    [0, 15] along every execution from the initial state. *)
Theorem brightness_invariant (es : list Event) (Hes : Forall valid_event es) :
  0 <= brightness (lamp (run init es)) <= 15.
Proof.
  change (lamp_ok (run init es)).
  assert (H : forall s, store_ok (routines s) (alarms s) -> lamp_ok s ->
                        lamp_ok (run s es)).
  { induction Hes as [|e es He Hes IH]; simpl; intros s Hs Hl; auto.
    apply IH; [apply step_store_ok; exact Hs|apply step_lamp_ok; auto]. }
  apply H; [repeat split; simpl; lia|unfold lamp_ok; simpl; lia].
Qed.

(** ** Sync handlers: ids, round trips, full sync *)

Lemma find_index_none {A} (idf : A -> Z) xs id :
  find_index idf xs id = None -> ~ In id (List.map idf xs).
Proof.
  induction xs as [|x xs IH]; simpl; [auto|].
  destruct (idf x =? id) eqn:E; [discriminate|].
  destruct (find_index idf xs id); [discriminate|]. intros _ [H|H].
  - apply Z.eqb_neq in E. congruence.
  - apply IH; auto.
Qed.

Lemma find_index_some {A} (idf : A -> Z) xs id i :
  find_index idf xs id = Some i ->
  exists x, nth_error xs i = Some x /\ idf x = id
            /\ forall j y, (j < i)%nat -> nth_error xs j = Some y -> idf y <> id.
Proof.
  revert i; induction xs as [|x xs IH]; simpl; intros i H; [discriminate|].
  destruct (idf x =? id) eqn:E.
  - inversion H; subst. exists x. apply Z.eqb_eq in E. repeat split; auto.
    intros j y Hj. lia.
  - destruct (find_index idf xs id) as [k|]; simpl in H; [|discriminate].
    inversion H; subst. destruct (IH k eq_refl) as (y & H1 & H2 & H3).
    exists y. repeat split; auto.
    intros [|j] z Hj Hz; simpl in Hz.
    + inversion Hz; subst. apply Z.eqb_neq in E. exact E.
    + apply (H3 j); auto; lia.
Qed.

Lemma map_set_nth {A B} (f : A -> B) xs i v :
  List.map f (set_nth xs i v) = set_nth (List.map f xs) i (f v).
Proof.
  revert i; induction xs as [|x xs IH]; intros [|i]; simpl; auto. rewrite IH; auto.
Qed.

Lemma set_nth_same_value {A} (xs : list A) i x :
  nth_error xs i = Some x -> set_nth xs i x = xs.
Proof.
  revert i; induction xs as [|y xs IH]; intros [|i] H; simpl in *; try discriminate.
  - inversion H; subst; auto.
  - rewrite IH; auto.
Qed.

Lemma upsert_nodup {A} (idf : A -> Z) cap xs r xs' :
  NoDup (List.map idf xs) -> upsert idf cap xs r = Some xs' -> NoDup (List.map idf xs').
Proof.
  unfold upsert. intros Hn H.
  destruct (find_index idf xs (idf r)) as [i|] eqn:E.
  - inversion H; subst. rewrite map_set_nth.
    destruct (find_index_some _ _ _ _ E) as (x & Hx & Hid & _).
    rewrite <- Hid. rewrite set_nth_same_value; auto.
    apply map_nth_error. exact Hx.
  - destruct (_ <? cap); [|discriminate]. inversion H; subst.
    rewrite map_app; simpl. apply NoDup_app; auto.
    + constructor; [auto|constructor].
    + intros y Hy [Hr|[]]. subst. apply (find_index_none _ _ _ E); auto.
Qed.

Lemma remove_first_filter {A} (idf : A -> Z) xs id :
  NoDup (List.map idf xs) ->
  remove_first idf xs id
  = if existsb (fun x => idf x =? id) xs
    then Some (filter (fun x => negb (idf x =? id)) xs) else None.
Proof.
  induction xs as [|x xs IH]; simpl; intros Hn; [reflexivity|].
  inversion Hn as [|? ? Hnin Hn']; subst.
  destruct (idf x =? id) eqn:E; simpl.
  - f_equal. apply Z.eqb_eq in E. subst.
    symmetry. apply forallb_filter_id. apply forallb_forall.
    intros y Hy. apply negb_true_iff, Z.eqb_neq. intros Heq.
    apply Hnin. rewrite <- Heq. apply in_map. exact Hy.
  - rewrite IH by exact Hn'.
    destruct (existsb _ xs); reflexivity.
Qed.

Lemma remove_first_nodup {A} (idf : A -> Z) xs id xs' :
  NoDup (List.map idf xs) -> remove_first idf xs id = Some xs' ->
  NoDup (List.map idf xs').
Proof.
  intros Hn H. rewrite remove_first_filter in H by exact Hn.
  destruct (existsb _ _); inversion H; subst.
  clear H. induction xs as [|x xs IH]; simpl in *; [constructor|].
  inversion Hn as [|? ? Hnin Hn']; subst.
  destruct (negb (idf x =? id)); simpl; auto.
  constructor; auto. intros Hin. apply Hnin.
  apply in_map_iff in Hin as (y & Hy & Hin). apply filter_In in Hin as [Hin _].
  rewrite <- Hy. apply in_map. exact Hin.
Qed.

(** Routine and alarm sync messages keep the stored ids pairwise
    distinct: an upsert of an existing id overwrites it and a delete removes
    one entry. *)
Theorem sync_keeps_ids_unique (rs : list Routine) (al : list Alarm)
  (ra : SyncAction RoutineData) (aa : SyncAction AlarmData)
  (Hr : NoDup (List.map r_id rs)) (Ha : NoDup (List.map a_id al)) :
  NoDup (List.map r_id (fst (handleRoutineSync rs ra)))
  /\ NoDup (List.map a_id (fst (handleAlarmSync al aa))).
Proof.
  split.
  - destruct ra as [|[d|]|idv|]; simpl; auto.
    + destruct (validate_routine d) as [r|]; simpl; auto.
      destruct (upsert r_id MAX_ROUTINES rs r) as [rs'|] eqn:E; simpl; auto.
      eapply upsert_nodup; eauto.
    + destruct (readIntField idv 0 32767) as [id|]; simpl; auto.
      destruct (remove_first r_id rs id) as [rs'|] eqn:E; simpl; auto.
      eapply remove_first_nodup; eauto.
  - destruct aa as [|[d|]|idv|]; simpl; auto.
    + destruct (validate_alarm d) as [a|]; simpl; auto.
      destruct (upsert a_id MAX_ALARMS al a) as [al'|] eqn:E; simpl; auto.
      eapply upsert_nodup; eauto.
    + destruct (readIntField idv 0 32767) as [id|]; simpl; auto.
      destruct (remove_first a_id al id) as [al'|] eqn:E; simpl; auto.
      eapply remove_first_nodup; eauto.
Qed.

Lemma find_set_nth {A} (idf : A -> Z) xs i v :
  (i < List.length xs)%nat ->
  (forall j y, (j < i)%nat -> nth_error xs j = Some y -> idf y <> idf v) ->
  find (fun x => idf x =? idf v) (set_nth xs i v) = Some v.
Proof.
  revert i; induction xs as [|x xs IH]; intros [|i] Hi Hb; simpl in *; try lia.
  - rewrite Z.eqb_refl. reflexivity.
  - destruct (idf x =? idf v) eqn:E.
    + exfalso. apply (Hb O x); auto; [lia|]. apply Z.eqb_eq; exact E.
    + apply IH; [lia|]. intros j y Hj Hy. apply (Hb (S j)); auto; lia.
Qed.

Lemma find_app_none {A} (f : A -> bool) xs ys :
  find f xs = None -> find f (xs ++ ys)%list = find f ys.
Proof.
  induction xs as [|x xs IH]; simpl; auto. destruct (f x); [discriminate|auto].
Qed.

Lemma find_none_of_index {A} (idf : A -> Z) xs id :
  find_index idf xs id = None -> find (fun x => idf x =? id) xs = None.
Proof.
  induction xs as [|x xs IH]; simpl; auto.
  destruct (idf x =? id); [discriminate|].
  destruct (find_index idf xs id); [discriminate|auto].
Qed.

Lemma upsert_find {A} (idf : A -> Z) cap xs r xs' :
  upsert idf cap xs r = Some xs' -> find (fun x => idf x =? idf r) xs' = Some r.
Proof.
  unfold upsert. intros H.
  destruct (find_index idf xs (idf r)) as [i|] eqn:E.
  - inversion H; subst.
    destruct (find_index_some _ _ _ _ E) as (x & Hx & Hid & Hb).
    apply find_set_nth; auto.
    apply nth_error_Some. congruence.
  - destruct (_ <? cap); [|discriminate]. inversion H; subst.
    rewrite find_app_none by (apply find_none_of_index; exact E).
    simpl. rewrite Z.eqb_refl. reflexivity.
Qed.

Lemma upsert_some {A} (idf : A -> Z) cap xs r :
  (Z.of_nat (List.length xs) < cap \/ In (idf r) (List.map idf xs)) ->
  exists xs', upsert idf cap xs r = Some xs'.
Proof.
  unfold upsert. intros H.
  destruct (find_index idf xs (idf r)) as [i|] eqn:E; [eauto|].
  destruct H as [H|H].
  - apply Z.ltb_lt in H. rewrite H. eauto.
  - exfalso. apply (find_index_none _ _ _ E H).
Qed.

Lemma validate_routine_id d r :
  validate_routine d = inl r -> 0 <= r_id r.
Proof.
  intros H. apply validate_routine_valid in H. unfold routine_valid, in_range in H.
  repeat rewrite andb_true_iff in H. destruct H as [[[[[[[H _] _] _] _] _] _] _].
  apply Z.leb_le in H. exact H.
Qed.

Lemma validate_alarm_id d a :
  validate_alarm d = inl a -> 0 <= a_id a.
Proof.
  intros H. apply validate_alarm_valid in H. unfold alarm_valid, in_range in H.
  repeat rewrite andb_true_iff in H. destruct H as [[[[[[H _] _] _] _] _] _].
  apply Z.leb_le in H. exact H.
Qed.

(** Upsert then lookup: when a valid upsert fits (its id is stored, or the
    store is below capacity), it is acknowledged as synced and
    [findRoutineById] / [findAlarmById] on its id then return exactly the
    new record. *)
Theorem upsert_then_find :
  (forall rs d r, validate_routine d = inl r ->
     (List.length rs < 10 \/ In (r_id r) (List.map r_id rs))%nat ->
     let '(rs', e) := handleRoutineSync rs (ActUpsert (Some d)) in
     e = ESyncResponse "routine_sync_response" true "Routine synced successfully"
     /\ findRoutineById rs' (r_id r) = Some r)
  /\ (forall al d a, validate_alarm d = inl a ->
     (List.length al < 5 \/ In (a_id a) (List.map a_id al))%nat ->
     let '(al', e) := handleAlarmSync al (ActUpsert (Some d)) in
     e = ESyncResponse "alarm_sync_response" true "Alarm synced successfully"
     /\ findAlarmById al' (a_id a) = Some a).
Proof.
  split.
  - intros rs d r Hv Hc. simpl. rewrite Hv.
    destruct (upsert_some r_id MAX_ROUTINES rs r) as [rs' Hu];
      [unfold MAX_ROUTINES; destruct Hc; [left; lia|right; auto]|].
    rewrite Hu. split; [reflexivity|].
    unfold findRoutineById.
    replace (r_id r <? 0) with false by (symmetry; apply Z.ltb_ge, (validate_routine_id d r Hv)).
    exact (upsert_find _ _ _ _ _ Hu).
  - intros al d a Hv Hc. simpl. rewrite Hv.
    destruct (upsert_some a_id MAX_ALARMS al a) as [al' Hu];
      [unfold MAX_ALARMS; destruct Hc; [left; lia|right; auto]|].
    rewrite Hu. split; [reflexivity|].
    unfold findAlarmById.
    replace (a_id a <? 0) with false by (symmetry; apply Z.ltb_ge, (validate_alarm_id d a Hv)).
    exact (upsert_find _ _ _ _ _ Hu).
Qed.

(** Delete then lookup: in a store with distinct ids, a delete of a valid
    id removes exactly the entry with that id, keeps the order of the
    others, and is answered "Routine deleted"; afterwards [findRoutineById]
    finds nothing for it. A missing id leaves the store as it was and is
    answered "Routine not found". *)
Theorem delete_then_find (rs : list Routine) (id : Z)
  (Hn : NoDup (List.map r_id rs)) (Hid : 0 <= id <= 32767) :
  let '(rs', e) := handleRoutineSync rs (ActDelete (Some id)) in
  rs' = filter (fun r => negb (r_id r =? id)) rs
  /\ findRoutineById rs' id = None
  /\ e = ESyncResponse "routine_sync_response" (existsb (fun r => r_id r =? id) rs)
           (if existsb (fun r => r_id r =? id) rs then "Routine deleted"
            else "Routine not found").
Proof.
  cbv beta iota delta [handleRoutineSync].
  rewrite readIntField_some by (unfold in_range; apply andb_true_iff; split;
                                        apply Z.leb_le; lia).
  rewrite remove_first_filter by exact Hn.
  assert (Hf : forall xs, find (fun r => r_id r =? id)
                            (filter (fun r => negb (r_id r =? id)) xs) = None).
  { induction xs as [|x xs IH]; simpl; auto.
    destruct (r_id x =? id) eqn:E; simpl; auto. rewrite E. exact IH. }
  unfold findRoutineById. replace (id <? 0) with false by (symmetry; apply Z.ltb_ge; lia).
  destruct (existsb (fun r => r_id r =? id) rs) eqn:Ex.
  - repeat split; auto.
  - assert (Hfl : filter (fun r => negb (r_id r =? id)) rs = rs).
    { apply forallb_filter_id. apply forallb_forall. intros x Hx.
      apply negb_true_iff. destruct (r_id x =? id) eqn:E; auto.
      exfalso. assert (existsb (fun r => r_id r =? id) rs = true)
        by (apply existsb_exists; eauto). congruence. }
    rewrite Hfl. repeat split; auto.
    rewrite <- Hfl. apply Hf.
Qed.

(** The records of the items that pass validation, in order. *)
Fixpoint oks {D A} (validate : D -> A + string) (items : list D) : list A :=
  match items with
  | [] => []
  | d :: items' =>
      match validate d with
      | inl x => x :: oks validate items'
      | inr _ => oks validate items'
      end
  end.

Definition field_oks {D A} (validate : D -> A + string) (f : ArrayField D) : list A :=
  match f with
  | FieldArray items => oks validate items
  | _ => []
  end.

Lemma firstn_all_le {A} (xs : list A) n : (List.length xs <= n)%nat -> firstn n xs = xs.
Proof. intros H. apply firstn_all2. exact H. Qed.

Lemma fill_firstn {D A} (validate : D -> A + string) cap items acc inv :
  0 <= cap -> Z.of_nat (List.length acc) <= cap ->
  fst (fill validate cap items acc inv)
  = firstn (Z.to_nat cap) (acc ++ oks validate items)%list.
Proof.
  intros Hc. revert acc inv; induction items as [|d items IH]; intros acc inv Hl; simpl.
  - rewrite app_nil_r. symmetry. apply firstn_all_le. lia.
  - destruct (Z.of_nat (List.length acc) >=? cap) eqn:E.
    + rewrite Z.geb_le in E. simpl.
      assert (List.length acc = Z.to_nat cap) by lia.
      rewrite firstn_app, H, Nat.sub_diag, firstn_O, app_nil_r.
      symmetry. apply firstn_all_le. lia.
    + rewrite Z.geb_leb in E. apply Z.leb_gt in E.
      destruct (validate d) as [x|] eqn:Ed.
      * rewrite IH by (rewrite length_app; simpl; lia).
        rewrite <- app_assoc. reflexivity.
      * apply IH. exact Hl.
Qed.

Lemma fill_all_valid {D A} (validate : D -> A + string) cap items acc inv :
  Forall (fun d => exists x, validate d = inl x) items ->
  snd (fill validate cap items acc inv) = inv.
Proof.
  intros H. revert acc; induction H as [|d items [x Hx] _ IH]; intros acc; simpl; auto.
  destruct (_ >=? cap); simpl; auto. rewrite Hx. apply IH.
Qed.

(** A full sync replaces both stores: each keeps, in message order, the
    items that pass validation, cut to the first [MAX_ROUTINES] routines
    and [MAX_ALARMS] alarms; a member that is absent or not an array
    leaves that store empty. *)
Theorem full_sync_stores_first_valid (fr : ArrayField RoutineData)
  (fa : ArrayField AlarmData) :
  let '(rs, al, _) := handleFullSync fr fa in
  rs = firstn 10 (field_oks validate_routine fr)
  /\ al = firstn 5 (field_oks validate_alarm fa).
Proof.
  unfold handleFullSync.
  assert (Hr : fst (fill_field validate_routine MAX_ROUTINES fr)
               = firstn 10 (field_oks validate_routine fr)).
  { destruct fr; simpl; auto. rewrite fill_firstn; unfold MAX_ROUTINES; simpl; auto; lia. }
  assert (Ha : fst (fill_field validate_alarm MAX_ALARMS fa)
               = firstn 5 (field_oks validate_alarm fa)).
  { destruct fa; simpl; auto. rewrite fill_firstn; unfold MAX_ALARMS; simpl; auto; lia. }
  destruct (fill_field validate_routine MAX_ROUTINES fr) as [rs ir].
  destruct (fill_field validate_alarm MAX_ALARMS fa) as [al ia].
  simpl in *. auto.
Qed.

Lemma oks_valid_routines rs :
  Forall (fun r => routine_valid r = true) rs ->
  oks validate_routine (List.map data_of_routine rs) = rs.
Proof.
  induction 1 as [|r rs Hr _ IH]; simpl; auto.
  rewrite validate_routine_data by exact Hr. rewrite IH. reflexivity.
Qed.

Lemma oks_valid_alarms al :
  Forall (fun a => alarm_valid a = true) al ->
  oks validate_alarm (List.map data_of_alarm al) = al.
Proof.
  induction 1 as [|a al Ha _ IH]; simpl; auto.
  rewrite validate_alarm_data by exact Ha. rewrite IH. reflexivity.
Qed.

(** Full sync round trip: a full sync listing valid routines and alarms
    stores exactly them, in order, and answers "Full sync complete" with
    success; lists longer than the capacity are cut to the first 10
    routines and first 5 alarms and still reported as a complete success. *)
Theorem full_sync_round_trip (rs : list Routine) (al : list Alarm)
  (Hr : Forall (fun r => routine_valid r = true) rs)
  (Ha : Forall (fun a => alarm_valid a = true) al) :
  handleFullSync (FieldArray (List.map data_of_routine rs))
                 (FieldArray (List.map data_of_alarm al))
  = (firstn 10 rs, firstn 5 al,
     ESyncResponse "full_sync_response" true "Full sync complete").
Proof.
  unfold handleFullSync, fill_field.
  assert (Vr : Forall (fun d => exists x, validate_routine d = inl x)
                 (List.map data_of_routine rs)).
  { apply Forall_map. eapply Forall_impl; [|exact Hr].
    intros r H. exists r. apply validate_routine_data, H. }
  assert (Va : Forall (fun d => exists x, validate_alarm d = inl x)
                 (List.map data_of_alarm al)).
  { apply Forall_map. eapply Forall_impl; [|exact Ha].
    intros a H. exists a. apply validate_alarm_data, H. }
  pose proof (fill_firstn validate_routine MAX_ROUTINES (List.map data_of_routine rs) [] 0
                ltac:(unfold MAX_ROUTINES; lia) ltac:(simpl; unfold MAX_ROUTINES; lia)) as F1.
  pose proof (fill_firstn validate_alarm MAX_ALARMS (List.map data_of_alarm al) [] 0
                ltac:(unfold MAX_ALARMS; lia) ltac:(simpl; unfold MAX_ALARMS; lia)) as F2.
  pose proof (fill_all_valid validate_routine MAX_ROUTINES _ [] 0 Vr) as G1.
  pose proof (fill_all_valid validate_alarm MAX_ALARMS _ [] 0 Va) as G2.
  rewrite oks_valid_routines in F1 by exact Hr.
  rewrite oks_valid_alarms in F2 by exact Ha.
  destruct (fill validate_routine MAX_ROUTINES _ [] 0) as [rs' ir].
  destruct (fill validate_alarm MAX_ALARMS _ [] 0) as [al' ia].
  simpl in *. subst. reflexivity.
Qed.

(** ** Schedule, controls, blink and tick timing *)

Lemma update_idem x c :
  updateSuppressionWindows (updateSuppressionWindows x c) c = updateSuppressionWindows x c.
Proof.
  destruct x as [rsup sr asup sa]. unfold updateSuppressionWindows; simpl.
  destruct rsup, (routine_window sr c), asup, (alarm_window sa c); reflexivity.
Qed.

Lemma set_supp_self s : set_supp s (supp s) = s.
Proof. destruct s; reflexivity. Qed.

(** A tick whose suppression flags are already up to date works on the state
    itself. *)
Lemma checkSchedule_fixed s h m :
  updateSuppressionWindows (supp s) (h * 60 + m) = supp s ->
  checkSchedule s (Some (h, m)) =
  match find_routine (routines s) (h * 60 + m) with
  | Some r => apply_routine s r m
  | None =>
      if routineActive (rslot s) then end_routine s
      else
        match find_alarm (alarms s) (h * 60 + m) with
        | Some a => apply_alarm s a (h * 60 + m) m
        | None => if alarmActive (aslot s) then end_alarm s else (s, [])
        end
  end.
Proof.
  intros Hs. cbv beta iota zeta delta [checkSchedule]. rewrite Hs, set_supp_self.
  reflexivity.
Qed.

Lemma apply_routine_frame s r m :
  let s1 := fst (apply_routine s r m) in
  supp s1 = supp s /\ routines s1 = routines s /\ alarms s1 = alarms s.
Proof.
  unfold apply_routine. destruct (_ && _); [auto|]. destruct (_ || _); simpl; auto.
Qed.

Lemma apply_alarm_frame s a t m :
  let s1 := fst (apply_alarm s a t m) in
  supp s1 = supp s /\ routines s1 = routines s /\ alarms s1 = alarms s
  /\ rslot s1 = rslot s.
Proof.
  unfold apply_alarm. destruct (_ && _); [auto|]. destruct (_ || _); simpl; auto.
Qed.

Lemma apply_routine_settles s r m :
  let s1 := fst (apply_routine s r m) in apply_routine s1 r m = (s1, []).
Proof.
  unfold apply_routine; cbv zeta. destruct (routineSuppressed (supp s) && (r_id (suppressedRoutine (supp s)) =? r_id r)) eqn:E.
  - simpl. rewrite E. reflexivity.
  - destruct (_ || _) eqn:A; simpl.
    + rewrite E, Z.eqb_refl, Z.eqb_refl. reflexivity.
    + rewrite E, A. reflexivity.
Qed.

Lemma apply_alarm_settles s a t m :
  let s1 := fst (apply_alarm s a t m) in apply_alarm s1 a t m = (s1, []).
Proof.
  unfold apply_alarm; cbv zeta. destruct (alarmSuppressed (supp s) && (a_id (suppressedAlarm (supp s)) =? a_id a)) eqn:E.
  - simpl. rewrite E. reflexivity.
  - destruct (_ || _) eqn:A; simpl.
    + rewrite E, Z.eqb_refl, Z.eqb_refl. reflexivity.
    + rewrite E, A. reflexivity.
Qed.

(** After any tick, the routine slot is never left active with no routine
    in its window, and the flags are up to date. *)
Lemma tick_after s h m :
  let s1 := fst (checkSchedule s (Some (h, m))) in
  updateSuppressionWindows (supp s1) (h * 60 + m) = supp s1
  /\ (find_routine (routines s1) (h * 60 + m) = None -> routineActive (rslot s1) = false).
Proof.
  intros s1. split.
  - subst s1. rewrite checkSchedule_supp. apply update_idem.
  - subst s1. unfold checkSchedule. simpl.
    destruct (find_routine (routines s) (h * 60 + m)) as [r|] eqn:Er.
    + destruct (apply_routine_frame (set_supp s (updateSuppressionWindows (supp s) (h * 60 + m))) r m)
        as (_ & Hr & _).
      rewrite Hr. simpl. rewrite Er. discriminate.
    + intros _. destruct (routineActive (rslot s)) eqn:Ra; [reflexivity|].
      destruct (find_alarm (alarms s) (h * 60 + m)) as [a|].
      * rewrite apply_alarm_rslot. exact Ra.
      * destruct (alarmActive (aslot s)); exact Ra.
Qed.

Lemma tick_quiet s h m :
  updateSuppressionWindows (supp s) (h * 60 + m) = supp s ->
  (find_routine (routines s) (h * 60 + m) = None -> routineActive (rslot s) = false) ->
  let s1 := fst (checkSchedule s (Some (h, m))) in
  checkSchedule s1 (Some (h, m)) = (s1, []).
Proof.
  intros Hs Hn s1. subst s1. rewrite (checkSchedule_fixed s h m Hs).
  destruct (find_routine (routines s) (h * 60 + m)) as [r|] eqn:Er.
  - destruct (apply_routine_frame s r m) as (Hx & Hr & _).
    rewrite checkSchedule_fixed by (rewrite Hx; exact Hs).
    rewrite Hr, Er. apply apply_routine_settles.
  - rewrite (Hn eq_refl).
    destruct (find_alarm (alarms s) (h * 60 + m)) as [a|] eqn:Ea.
    + destruct (apply_alarm_frame s a (h * 60 + m) m) as (Hx & Hr & Ha & Hrs).
      rewrite checkSchedule_fixed by (rewrite Hx; exact Hs).
      rewrite Hr, Er, Hrs, (Hn eq_refl), Ha, Ea. apply apply_alarm_settles.
    + destruct (alarmActive (aslot s)) eqn:Aa.
      * rewrite checkSchedule_fixed by exact Hs.
        change (routines (fst (end_alarm s))) with (routines s).
        change (rslot (fst (end_alarm s))) with (rslot s).
        change (alarms (fst (end_alarm s))) with (alarms s).
        rewrite Er, (Hn eq_refl), Ea. reflexivity.
      * cbn [fst]. rewrite checkSchedule_fixed by exact Hs.
        rewrite Er, (Hn eq_refl), Ea, Aa. reflexivity.
Qed.

(** At a fixed clock reading the schedule settles: the third tick of the
    same minute changes nothing and has no effect. *)
Theorem schedule_settles s h m :
  let s1 := fst (checkSchedule s (Some (h, m))) in
  let s2 := fst (checkSchedule s1 (Some (h, m))) in
  checkSchedule s2 (Some (h, m)) = (s2, []).
Proof.
  intros s1 s2. destruct (tick_after s h m) as [H1 H2].
  apply tick_quiet; assumption.
Qed.

(** Gestures when unlocked: three double clicks go round the three modes,
    two single clicks restore the on/off state. *)
Theorem gesture_round_trips s (Hu : isManualControlLocked s = false) :
  let dbl t := fst (on_gesture t Double) in
  let sgl t := fst (on_gesture t Single) in
  mode (lamp (dbl s)) <> mode (lamp s)
  /\ mode (lamp (dbl (dbl s))) <> mode (lamp s)
  /\ lamp (dbl (dbl (dbl s))) = lamp s
  /\ isOn (lamp (sgl s)) = negb (isOn (lamp s))
  /\ lamp (sgl (sgl s)) = lamp s.
Proof.
  destruct s as [rs al [o b md] rsl asl x sun dis c lp].
  destruct rsl as [ra ? ? ? ? ? ?], asl as [aa ? ? ? ? ? ?].
  unfold isManualControlLocked in Hu; simpl in Hu.
  destruct ra, aa, sun; try discriminate.
  destruct md, o; cbv; repeat split; try discriminate; reflexivity.
Qed.

(** A triple click always unlocks manual control, keeps the lamp and the
    store, marks the sun sync disabled by hardware when it was on, and with
    nothing to override changes nothing but reports. *)
Theorem triple_click_unlocks s :
  let '(s', es) := handleTripleClick s in
  isManualControlLocked s' = false
  /\ lamp s' = lamp s /\ routines s' = routines s /\ alarms s' = alarms s
  /\ sunSyncDisabledByHardware s' = sunSyncActive s || sunSyncDisabledByHardware s
  /\ (isManualControlLocked s = false ->
      s' = s /\ es = [applyOutput (lamp s); ESendStateUpdate;
                      EOverrideEvent false false false]).
Proof.
  destruct s as [rs al l rsl asl x sun dis c lp].
  destruct rsl as [ra ? ? ? ? ? ?], asl as [aa ? ? ? ? ? ?].
  unfold handleTripleClick, isManualControlLocked; simpl.
  destruct ra, aa, sun; simpl;
    repeat match goal with
           | |- context [match ?e with _ => _ end] => destruct e
           end; simpl; repeat split; auto; try discriminate.
Qed.

Lemma isManualControlLocked_set_lastPos s p :
  isManualControlLocked (set_lastPos s p) = isManualControlLocked s.
Proof. reflexivity. Qed.

(** Turning the knob by [p - lastPos] and back, unlocked and inside the
    brightness range, restores the lamp and the recorded position. *)
Theorem rotary_round_trip s p
  (Hu : isManualControlLocked s = false) (Hp : p <> lastPos s)
  (Hb : (if isOn (lamp s) then 1 else 0) <= brightness (lamp s) <= 15)
  (Hb' : (if isOn (lamp s) then 1 else 0) <= brightness (lamp s) + (p - lastPos s) <= 15) :
  let s1 := fst (handleRotaryEncoder s p) in
  let s2 := fst (handleRotaryEncoder s1 (lastPos s)) in
  brightness (lamp s1) = brightness (lamp s) + (p - lastPos s)
  /\ lamp s2 = lamp s /\ lastPos s2 = lastPos s.
Proof.
  destruct s as [rs al [o b md] rsl asl x sun dis c lp]; simpl in *.
  unfold handleRotaryEncoder; simpl.
  rewrite isManualControlLocked_set_lastPos.
  unfold isManualControlLocked in *; simpl in *. rewrite Hu.
  assert (E1 : (p =? lp) = false) by (apply Z.eqb_neq; exact Hp).
  rewrite E1.
  assert (C1 : constrain (b + (p - lp) * 1) (if o then 1 else 0) 15 = b + (p - lp)).
  { unfold constrain. rewrite Z.mul_1_r.
    destruct (b + (p - lp) <? (if o then 1 else 0)) eqn:L; [apply Z.ltb_lt in L; lia|].
    destruct (b + (p - lp) >? 15) eqn:G; [rewrite Z.gtb_ltb in G; apply Z.ltb_lt in G; lia|].
    reflexivity. }
  rewrite C1.
  destruct (negb (b + (p - lp) =? b)) eqn:N.
  - simpl. rewrite Hu.
    assert (E2 : (lp =? p) = false) by (apply Z.eqb_neq; lia). rewrite E2.
    assert (C2 : constrain (b + (p - lp) + (lp - p) * 1) (if o then 1 else 0) 15 = b).
    { replace (b + (p - lp) + (lp - p) * 1) with b by lia. unfold constrain.
      destruct (b <? (if o then 1 else 0)) eqn:L; [apply Z.ltb_lt in L; lia|].
      destruct (b >? 15) eqn:G; [rewrite Z.gtb_ltb in G; apply Z.ltb_lt in G; lia|].
      reflexivity. }
    rewrite C2.
    assert (N2 : negb (b =? b + (p - lp)) = true).
    { apply negb_true_iff in N. apply negb_true_iff, Z.eqb_neq. apply Z.eqb_neq in N. lia. }
    rewrite N2. simpl. auto.
  - apply negb_false_iff, Z.eqb_eq in N. lia.
Qed.

(** While manual control is locked, a knob turn changes no light but the
    position is taken: the turn is dropped, not replayed after unlock. *)
Theorem rotary_locked_drops_turn s p
  (Hl : isManualControlLocked s = true) (Hp : p <> lastPos s) :
  handleRotaryEncoder s p = (set_lastPos s p, []).
Proof.
  unfold handleRotaryEncoder.
  assert (E : (p =? lastPos s) = false) by (apply Z.eqb_neq; exact Hp).
  rewrite E, isManualControlLocked_set_lastPos, Hl. reflexivity.
Qed.

(** A level change within [DEBOUNCE_MS] of the last accepted one is not
    an edge: the decoder keeps its level, edge time and click times, and
    when it resolves no gesture it is left exactly as it was. *)
Theorem debounce_ignores_bounce c now p
  (H : ul_sub now (lastChange c) <= DEBOUNCE_MS) :
  let '(c', g) := decode c now p in
  prevPressed c' = prevPressed c /\ lastChange c' = lastChange c
  /\ firstClickTime c' = firstClickTime c
  /\ lastClickReleaseTime c' = lastClickReleaseTime c
  /\ (g = None -> c' = c).
Proof.
  unfold decode.
  assert (E : (ul_sub now (lastChange c) >? DEBOUNCE_MS) = false).
  { rewrite Z.gtb_ltb. apply Z.ltb_ge. exact H. }
  rewrite E, andb_false_r.
  destruct ((clickCount c >? 0) && (ul_sub now (lastClickReleaseTime c) >? MULTI_CLICK_WINDOW_MS));
    simpl; repeat split; auto; discriminate.
Qed.

(** The sunrise ramp starts dark, never dims as the minutes pass, and is at
    full level from [duration] minutes after the start on. *)
Theorem alarm_ramp_monotone d (Hd : 1 <= d <= 240) :
  alarm_brightness 0 d = 0
  /\ (forall c, d <= c <= 1439 -> alarm_brightness c d = 15)
  /\ (forall c1 c2, 0 <= c1 <= c2 -> c2 <= 1439 ->
      alarm_brightness c1 d <= alarm_brightness c2 d).
Proof.
  split; [|split].
  - rewrite alarm_brightness_exact by lia. rewrite Z.mul_0_r, Z.div_0_l by lia. reflexivity.
  - intros c Hc. rewrite alarm_brightness_exact by lia.
    assert (15 <= 15 * c / d) by (apply Z.div_le_lower_bound; nia). lia.
  - intros c1 c2 H1 H2. rewrite !alarm_brightness_exact by lia.
    assert (15 * c1 / d <= 15 * c2 / d) by (apply Z.div_le_mono; lia). lia.
Qed.


(** A routine whose end equals its start covers the whole day: once
    enabled and stored, the tick always finds some routine. *)
Theorem whole_day_routine r rs
  (Heq : r_end_hour r * 60 + r_end_minute r = r_start_hour r * 60 + r_start_minute r)
  (Hin : In r rs) (He : r_enabled r = true) :
  forall cur, routine_window r cur = true /\ find_routine rs cur <> None.
Proof.
  intros cur.
  assert (W : routine_window r cur = true).
  { unfold routine_window, isWithinTimeRange. rewrite Heq.
    rewrite Z.gtb_ltb, Z.ltb_irrefl.
    destruct (cur >=? _) eqn:E; [reflexivity|].
    rewrite Z.geb_leb, Z.leb_gt in E. simpl. apply Z.leb_le. lia. }
  split; [exact W|].
  unfold find_routine. intros Hf. apply (find_none _ _ Hf) in Hin.
  rewrite He, W in Hin. discriminate.
Qed.

(** The per-tick update of the suppression windows only ever clears a
    flag, keeps the suppressed snapshots, and settles after one call. *)
Theorem suppression_only_clears x cur :
  let x' := updateSuppressionWindows x cur in
  (routineSuppressed x' = true -> routineSuppressed x = true
                                  /\ routine_window (suppressedRoutine x) cur = true)
  /\ (alarmSuppressed x' = true -> alarmSuppressed x = true
                                  /\ alarm_window (suppressedAlarm x) cur = true)
  /\ suppressedRoutine x' = suppressedRoutine x
  /\ suppressedAlarm x' = suppressedAlarm x
  /\ updateSuppressionWindows x' cur = x'.
Proof.
  intros x'. subst x'. rewrite update_idem.
  destruct x as [rsup sr asup sa]. unfold updateSuppressionWindows; simpl.
  destruct rsup, (routine_window sr cur), asup, (alarm_window sa cur);
    simpl; repeat split; auto; discriminate.
Qed.

(** Repeating a sun-sync state message changes nothing the second time
    and sends no state update. *)
Theorem sun_sync_repeat s active source :
  let s1 := fst (handleSunSyncState s active source) in
  handleSunSyncState s1 active source = (s1, []).
Proof.
  destruct active; unfold handleSunSyncState; simpl; [reflexivity|].
  destruct (String.eqb source "hardware"); reflexivity.
Qed.

Fixpoint total_delay (ops : list PwmOp) : Z :=
  match ops with
  | [] => 0
  | Delay ms :: ops' => ms + total_delay ops'
  | _ :: ops' => total_delay ops'
  end.

Lemma total_delay_app a b : total_delay (a ++ b) = total_delay a + total_delay b.
Proof. induction a as [|[] a IH]; simpl; rewrite ?IH; lia. Qed.

Lemma blink_loop_writes n c0 c1 on iv ch v :
  In (LedcWrite ch v) (blink_loop n c0 c1 on iv) ->
  v = 15 \/ (on = true /\ (ch = 0 /\ v = c0 \/ ch = 1 /\ v = c1)) \/ (on = false /\ v = 12).
Proof.
  induction n as [|n IH]; simpl; [tauto|].
  intros H. destruct on; simpl in H;
    repeat (destruct H as [H|H]; [inversion H; subst; tauto|]);
    apply IH; exact H.
Qed.

Lemma blink_loop_delay n c0 c1 on iv :
  total_delay (blink_loop n c0 c1 on iv) = 2 * Z.of_nat n * iv.
Proof.
  induction n as [|n IH]; [reflexivity|].
  rewrite Nat2Z.inj_succ.
  destruct on; cbn [blink_loop app total_delay]; rewrite IH; lia.
Qed.

(** When the PWM holds the lamp's own output, a blink shows nothing but
    fully off, that output, or for an off lamp the dim level 12; it ends on
    the lamp's output and lasts [2 * count * intervalMs] ms. *)
Theorem blink_restores_output l count iv :
  let '(c0, c1) := compute_channels (isOn l) (brightness l) (mode l) in
  let ops := blinkLamp c0 c1 l count iv in
  (forall ch v, In (LedcWrite ch v) ops ->
     v = 15 \/ (ch = 0 /\ v = c0) \/ (ch = 1 /\ v = c1) \/ (isOn l = false /\ v = 12))
  /\ (exists pre, ops = pre ++ [LedcWrite 0 c0; LedcWrite 1 c1])%list
  /\ total_delay ops = 2 * (count mod 256) * (iv mod 65536).
Proof.
  destruct (compute_channels (isOn l) (brightness l) (mode l)) as [c0 c1] eqn:Hc.
  unfold blinkLamp. rewrite Hc. split; [|split].
  - intros ch v H. apply in_app_or in H. destruct H as [H|H].
    + apply blink_loop_writes in H. destruct H as [H|[[_ [H|H]]|H]]; tauto.
    + simpl in H. destruct H as [H|[H|[]]]; inversion H; subst; tauto.
  - eexists; reflexivity.
  - rewrite total_delay_app, blink_loop_delay. simpl.
    rewrite Z2Nat.id by (apply Z.mod_pos_bound; lia). lia.
Qed.

(** The schedule check runs once at least [SCHEDULE_CHECK_INTERVAL] ms have
    passed since the last one, also across the wrap of [millis()]. *)
Theorem schedule_tick_elapsed last k s now2 tm
  (Hl : 0 <= last < 2 ^ 32) (Hk : 0 <= k < 2 ^ 32) :
  handleScheduleTick last s ((last + k) mod 2 ^ 32) now2 tm
  = if k >=? 1000 then (now2, checkSchedule s tm) else (last, (s, [])).
Proof.
  unfold handleScheduleTick, ul_sub.
  replace (((last + k) mod 2 ^ 32 - last) mod 2 ^ 32) with k.
  - reflexivity.
  - rewrite Zminus_mod_idemp_l. replace (last + k - last) with k by lia.
    symmetry. apply Z.mod_small. exact Hk.
Qed.

(** ** Witnesses *)

Lemma store_invariant_witness :
  let s := run init [upsert_routine_ev routine_A; upsert_alarm_ev alarm_X;
                     delete_routine_ev 7] in
  reachable s
  /\ (List.length (routines s) <= 10)%nat /\ (List.length (alarms s) <= 5)%nat
  /\ Forall (fun r => routine_valid r = true) (routines s)
  /\ Forall (fun a => alarm_valid a = true) (alarms s).
Proof.
  intros s.
  assert (H : reachable s) by (exists [upsert_routine_ev routine_A; upsert_alarm_ev alarm_X;
                                       delete_routine_ev 7]; reflexivity).
  split; [exact H | exact (store_invariant s H)].
Defined.

Lemma brightness_invariant_witness :
  let es := [upsert_routine_ev routine_A; Tick (Some (9, 0)); Rotary 40] in
  Forall valid_event es /\ 0 <= brightness (lamp (run init es)) <= 15.
Proof.
  intros es.
  assert (H : Forall valid_event es) by (repeat constructor; lia).
  split; [exact H | exact (brightness_invariant es H)].
Defined.

Lemma sync_keeps_ids_unique_witness :
  let rs := [routine_A; routine_B] in
  let al := [alarm_X] in
  let ra := ActUpsert (Some (data_of_routine (mkRoutine 2 true 6 0 7 0 5 1))) in
  let aa := ActDelete (Some 5) in
  NoDup (List.map r_id rs) /\ NoDup (List.map a_id al)
  /\ NoDup (List.map r_id (fst (handleRoutineSync rs ra)))
  /\ NoDup (List.map a_id (fst (handleAlarmSync al aa))).
Proof.
  intros rs al ra aa.
  assert (Hr : NoDup (List.map r_id rs)).
  { simpl. constructor; [simpl; intros [H|[]]; discriminate|].
    constructor; [simpl; tauto|constructor]. }
  assert (Ha : NoDup (List.map a_id al)) by (simpl; constructor; [simpl; tauto|constructor]).
  split; [exact Hr|split; [exact Ha|exact (sync_keeps_ids_unique rs al ra aa Hr Ha)]].
Defined.

Lemma delete_then_find_witness :
  let rs := [routine_A; routine_B] in
  NoDup (List.map r_id rs) /\ 0 <= 2 <= 32767
  /\ let '(rs', e) := handleRoutineSync rs (ActDelete (Some 2)) in
     rs' = filter (fun r => negb (r_id r =? 2)) rs
     /\ findRoutineById rs' 2 = None
     /\ e = ESyncResponse "routine_sync_response" (existsb (fun r => r_id r =? 2) rs)
              (if existsb (fun r => r_id r =? 2) rs then "Routine deleted"
               else "Routine not found").
Proof.
  intros rs.
  assert (Hn : NoDup (List.map r_id rs)).
  { simpl. constructor; [simpl; intros [H|[]]; discriminate|].
    constructor; [simpl; tauto|constructor]. }
  assert (Hid : 0 <= 2 <= 32767) by lia.
  split; [exact Hn|split; [exact Hid|exact (delete_then_find rs 2 Hn Hid)]].
Defined.

Lemma full_sync_round_trip_witness :
  let rs := (ten_routines ++ [routine_A])%list in
  let al := [alarm_X] in
  Forall (fun r => routine_valid r = true) rs
  /\ Forall (fun a => alarm_valid a = true) al
  /\ handleFullSync (FieldArray (List.map data_of_routine rs))
                    (FieldArray (List.map data_of_alarm al))
     = (firstn 10 rs, firstn 5 al,
        ESyncResponse "full_sync_response" true "Full sync complete").
Proof.
  intros rs al.
  assert (Hr : Forall (fun r => routine_valid r = true) rs)
    by (apply Forall_forall, forallb_forall; reflexivity).
  assert (Ha : Forall (fun a => alarm_valid a = true) al)
    by (apply Forall_forall, forallb_forall; reflexivity).
  split; [exact Hr|split; [exact Ha|exact (full_sync_round_trip rs al Hr Ha)]].
Defined.

Lemma gesture_round_trips_witness :
  isManualControlLocked init = false
  /\ (let dbl t := fst (on_gesture t Double) in
      let sgl t := fst (on_gesture t Single) in
      mode (lamp (dbl init)) <> mode (lamp init)
      /\ mode (lamp (dbl (dbl init))) <> mode (lamp init)
      /\ lamp (dbl (dbl (dbl init))) = lamp init
      /\ isOn (lamp (sgl init)) = negb (isOn (lamp init))
      /\ lamp (sgl (sgl init)) = lamp init).
Proof.
  assert (Hu : isManualControlLocked init = false) by reflexivity.
  split; [exact Hu | exact (gesture_round_trips init Hu)].
Defined.

Lemma rotary_round_trip_witness :
  let s := set_lamp init (mkLamp true 8 MODE_WARM) in
  isManualControlLocked s = false /\ 3 <> lastPos s
  /\ (if isOn (lamp s) then 1 else 0) <= brightness (lamp s) <= 15
  /\ (if isOn (lamp s) then 1 else 0) <= brightness (lamp s) + (3 - lastPos s) <= 15
  /\ (let s1 := fst (handleRotaryEncoder s 3) in
      let s2 := fst (handleRotaryEncoder s1 (lastPos s)) in
      brightness (lamp s1) = brightness (lamp s) + (3 - lastPos s)
      /\ lamp s2 = lamp s /\ lastPos s2 = lastPos s).
Proof.
  intros s.
  assert (Hu : isManualControlLocked s = false) by reflexivity.
  assert (Hp : 3 <> lastPos s) by (simpl; lia).
  assert (Hb : (if isOn (lamp s) then 1 else 0) <= brightness (lamp s) <= 15) by (simpl; lia).
  assert (Hb' : (if isOn (lamp s) then 1 else 0) <= brightness (lamp s) + (3 - lastPos s) <= 15)
    by (simpl; lia).
  split; [exact Hu|split; [exact Hp|split; [exact Hb|split; [exact Hb'|]]]].
  exact (rotary_round_trip s 3 Hu Hp Hb Hb').
Defined.

Lemma rotary_locked_drops_turn_witness :
  isManualControlLocked locked_state = true /\ 4 <> lastPos locked_state
  /\ handleRotaryEncoder locked_state 4 = (set_lastPos locked_state 4, []).
Proof.
  assert (Hl : isManualControlLocked locked_state = true) by (vm_compute; reflexivity).
  assert (Hp : 4 <> lastPos locked_state) by (vm_compute; discriminate).
  split; [exact Hl|split; [exact Hp|exact (rotary_locked_drops_turn locked_state 4 Hl Hp)]].
Defined.

Lemma debounce_ignores_bounce_witness :
  let c := mkClickState 0 0 0 true 1000 in
  ul_sub 1020 (lastChange c) <= DEBOUNCE_MS
  /\ let '(c', g) := decode c 1020 false in
     prevPressed c' = prevPressed c /\ lastChange c' = lastChange c
     /\ firstClickTime c' = firstClickTime c
     /\ lastClickReleaseTime c' = lastClickReleaseTime c
     /\ (g = None -> c' = c).
Proof.
  intros c.
  assert (H : ul_sub 1020 (lastChange c) <= DEBOUNCE_MS) by (apply Z.leb_le; reflexivity).
  split; [exact H|exact (debounce_ignores_bounce c 1020 false H)].
Defined.

Lemma alarm_ramp_monotone_witness :
  1 <= 10 <= 240
  /\ alarm_brightness 0 10 = 0
  /\ (forall c, 10 <= c <= 1439 -> alarm_brightness c 10 = 15)
  /\ (forall c1 c2, 0 <= c1 <= c2 -> c2 <= 1439 ->
      alarm_brightness c1 10 <= alarm_brightness c2 10).
Proof.
  assert (Hd : 1 <= 10 <= 240) by lia.
  split; [exact Hd|exact (alarm_ramp_monotone 10 Hd)].
Defined.


Lemma whole_day_routine_witness :
  let r := mkRoutine 3 true 7 0 7 0 10 1 in
  r_end_hour r * 60 + r_end_minute r = r_start_hour r * 60 + r_start_minute r
  /\ In r [routine_A; r] /\ r_enabled r = true
  /\ forall cur, routine_window r cur = true /\ find_routine [routine_A; r] cur <> None.
Proof.
  intros r.
  assert (Heq : r_end_hour r * 60 + r_end_minute r = r_start_hour r * 60 + r_start_minute r)
    by reflexivity.
  assert (Hin : In r [routine_A; r]) by (right; left; reflexivity).
  assert (He : r_enabled r = true) by reflexivity.
  split; [exact Heq|split; [exact Hin|split; [exact He|]]].
  exact (whole_day_routine r [routine_A; r] Heq Hin He).
Defined.

Lemma schedule_tick_elapsed_witness :
  0 <= 2 ^ 32 - 500 < 2 ^ 32 /\ 0 <= 1100 < 2 ^ 32
  /\ handleScheduleTick (2 ^ 32 - 500) init ((2 ^ 32 - 500 + 1100) mod 2 ^ 32) 600
       (Some (9, 0))
     = (if 1100 >=? 1000 then (600, checkSchedule init (Some (9, 0)))
        else (2 ^ 32 - 500, (init, []))).
Proof.
  assert (Hl : 0 <= 2 ^ 32 - 500 < 2 ^ 32) by lia.
  assert (Hk : 0 <= 1100 < 2 ^ 32) by lia.
  split; [exact Hl|split; [exact Hk|]].
  exact (schedule_tick_elapsed (2 ^ 32 - 500) 1100 init 600 (Some (9, 0)) Hl Hk).
Defined.
